(** * librime-userdb-cleaner: a shallow embedding of src/userdb_cleaner.cc

    Strings of the C++ code (std::string, file names, file contents) are
    byte sequences, modelled as [list ascii].  Doubles produced by the
    number parsers are modelled by their exact decimal or binary value
    (a rational), infinities and NaN; only their sign is ever inspected by
    the code ([c_value > 0.0]). *)

From Stdlib Require Import List Bool Arith Lia ZArith QArith Qabs.
From Stdlib Require Import Ascii String.
Import ListNotations.

Open Scope list_scope.
Open Scope nat_scope.

Definition bytes := list ascii.

(** String literals of the C++ source, as byte sequences. *)
Definition s2l (s : string) : bytes := list_ascii_of_string s.

Definition byte_eqb (a b : ascii) : bool := Ascii.eqb a b.

Fixpoint bytes_eqb (a b : bytes) : bool :=
  match a, b with
  | [], [] => true
  | x :: a', y :: b' => byte_eqb x y && bytes_eqb a' b'
  | _, _ => false
  end.

(** [prefixb p s]: [s] starts with [p]. *)
Fixpoint prefixb (p s : bytes) : bool :=
  match p, s with
  | [], _ => true
  | x :: p', y :: s' => byte_eqb x y && prefixb p' s'
  | _ :: _, [] => false
  end.

(** [std::string::rfind(pat)]: the last index at which [pat] occurs. *)
Fixpoint rfind_from (pat s : bytes) (i : nat) : option nat :=
  match s with
  | [] => if prefixb pat [] then Some i else None
  | _ :: s' =>
      match rfind_from pat s' (S i) with
      | Some j => Some j
      | None => if prefixb pat s then Some i else None
      end
  end.

Definition rfind (pat s : bytes) : option nat := rfind_from pat s 0.

(** [std::string::find(c, from)]: the first index [>= from] holding [c]. *)
Fixpoint find_from (c : ascii) (s : bytes) (i from : nat) : option nat :=
  match s with
  | [] => None
  | x :: s' =>
      if (from <=? i) && byte_eqb x c then Some i else find_from c s' (S i) from
  end.

Definition find_char (c : ascii) (s : bytes) (from : nat) : option nat :=
  find_from c s 0 from.

(** [std::string::substr(pos, n)] and [substr(pos)] (in range). *)
Definition substr (s : bytes) (pos n : nat) : bytes := firstn n (skipn pos s).
Definition substr_from (s : bytes) (pos : nat) : bytes := skipn pos s.

(** [std::isspace] in the "C" locale: space, \t, \n, \v, \f, \r. *)
Definition isspace (c : ascii) : bool :=
  let n := nat_of_ascii c in (n =? 32) || ((9 <=? n) && (n <=? 13)).

Fixpoint take_while (p : ascii -> bool) (s : bytes) : bytes :=
  match s with
  | [] => []
  | c :: s' => if p c then c :: take_while p s' else []
  end.

Definition is_digit (c : ascii) : bool :=
  let n := nat_of_ascii c in (48 <=? n) && (n <=? 57).

Definition lower (c : ascii) : ascii :=
  let n := nat_of_ascii c in
  if (65 <=? n) && (n <=? 90) then ascii_of_nat (n + 32) else c.

Definition hex_val (c : ascii) : option nat :=
  let n := nat_of_ascii (lower c) in
  if (48 <=? n) && (n <=? 57) then Some (n - 48)
  else if (97 <=? n) && (n <=? 102) then Some (n - 87)
  else None.

Definition is_nchar (c : ascii) : bool :=
  let n := nat_of_ascii (lower c) in
  is_digit c || ((97 <=? n) && (n <=? 122)) || (n =? 95).

(** Case-insensitive prefix test (for "inf", "infinity", "nan"). *)
Fixpoint ci_prefixb (p s : bytes) : bool :=
  match p, s with
  | [], _ => true
  | x :: p', y :: s' => byte_eqb x (lower y) && ci_prefixb p' s'
  | _ :: _, [] => false
  end.

(** ** Values of a parsed floating-point number *)

Inductive fvalue :=
| FFin (q : Q)          (* a finite value, by its exact magnitude *)
| FInf (neg : bool)     (* +inf / -inf *)
| FNaN.

(** [c_value > 0.0] on a double. *)
Definition gt0 (v : fvalue) : bool :=
  match v with
  | FFin q => negb (Qle_bool q 0%Q)
  | FInf neg => negb neg
  | FNaN => false
  end.

Definition fneg (neg : bool) (v : fvalue) : fvalue :=
  if neg then
    match v with
    | FFin q => FFin (- q)%Q
    | FInf b => FInf (negb b)
    | FNaN => FNaN
    end
  else v.

(** Range of binary64: a decimal value is reported as out of range when it
    rounds to infinity (|q| >= 2^1024 - 2^970) or, being non-zero, rounds
    to zero (|q| <= 2^-1075). *)
Definition dbl_overflow : Q := inject_Z (2 ^ 1024 - 2 ^ 970).
Definition dbl_underflow : Q := Qinv (inject_Z (2 ^ 1075)).

Definition dbl_range_ok (v : fvalue) : bool :=
  match v with
  | FFin q =>
      Qeq_bool q 0%Q ||
      (negb (Qle_bool (Qabs q) dbl_underflow) && negb (Qle_bool dbl_overflow (Qabs q)))
  | _ => true
  end.

(** ** Lexing numbers: the grammar shared by [std::from_chars] and [strtod] *)

Fixpoint span_digits (s : bytes) : list nat * bytes :=
  match s with
  | c :: s' =>
      if is_digit c then
        let '(ds, r) := span_digits s' in ((nat_of_ascii c - 48) :: ds, r)
      else ([], s)
  | [] => ([], [])
  end.

Fixpoint span_hex (s : bytes) : list nat * bytes :=
  match s with
  | c :: s' =>
      match hex_val c with
      | Some d => let '(ds, r) := span_hex s' in (d :: ds, r)
      | None => ([], s)
      end
  | [] => ([], [])
  end.

Definition digits_value (base : Z) (ds : list nat) : Z :=
  fold_left (fun acc d => (acc * base + Z.of_nat d)%Z) ds 0%Z.

(** An optional sign: ['-'], and ['+'] when [allow_plus]. *)
Definition lex_sign (allow_plus : bool) (s : bytes) : bool * nat :=
  match s with
  | c :: _ =>
      if byte_eqb c "-"%char then (true, 1)
      else if allow_plus && byte_eqb c "+"%char then (false, 1)
      else (false, 0)
  | [] => (false, 0)
  end.

(** An exponent part [marker [+-] digits]; consumed only when well formed. *)
Definition lex_exponent (marker : ascii) (s : bytes) : Z * nat :=
  match s with
  | c :: s' =>
      if byte_eqb (lower c) marker then
        let '(neg, k) := lex_sign true s' in
        let '(ds, _) := span_digits (skipn k s') in
        match ds with
        | [] => (0%Z, 0)
        | _ => let e := digits_value 10 ds in
               ((if neg then - e else e)%Z, 1 + k + List.length ds)
        end
      else (0%Z, 0)
  | [] => (0%Z, 0)
  end.

(** [digits [. digits] [exponent]] with at least one digit. *)
Definition lex_mantissa (span : bytes -> list nat * bytes) (s : bytes)
  : option (list nat * list nat * nat * bytes) :=
  let '(d1, r1) := span s in
  let '(dot, d2, r2) :=
    match r1 with
    | c :: r => if byte_eqb c "."%char then let '(d2, r2) := span r in (1, d2, r2)
                else (0, [], r1)
    | [] => (0, [], r1)
    end in
  if List.length d1 + List.length d2 =? 0 then None
  else Some (d1, d2, List.length d1 + dot + List.length d2, r2).

Definition lex_decimal (s : bytes) : option (Q * nat) :=
  match lex_mantissa span_digits s with
  | None => None
  | Some (d1, d2, n, r) =>
      let '(e, ne) := lex_exponent "e"%char r in
      Some ((inject_Z (digits_value 10 (d1 ++ d2)) *
              Qpower (inject_Z 10) (e - Z.of_nat (List.length d2)))%Q, n + ne)
  end.

(** Hexadecimal floating literal [0x hexdigits [. hexdigits] [p exponent]]
    (accepted by [strtod] only). *)
Definition lex_hex (s : bytes) : option (Q * nat) :=
  match s with
  | z :: x :: r =>
      if byte_eqb z "0"%char && byte_eqb (lower x) "x"%char then
        match lex_mantissa span_hex r with
        | None => None
        | Some (h1, h2, n, r') =>
            let '(e, ne) := lex_exponent "p"%char r' in
            Some ((inject_Z (digits_value 16 (h1 ++ h2)) *
                    Qpower (inject_Z 2) (e - 4 * Z.of_nat (List.length h2)))%Q, 2 + n + ne)
        end
      else None
  | _ => None
  end.

(** [nan(n-char-sequence)]: the parenthesised part is consumed when closed. *)
Definition nan_paren (s : bytes) : nat :=
  match s with
  | c :: r =>
      if byte_eqb c "("%char then
        let k := List.length (take_while is_nchar r) in
        match skipn k r with
        | c' :: _ => if byte_eqb c' ")"%char then k + 2 else 0
        | [] => 0
        end
      else 0
  | [] => 0
  end.

Definition lex_special (s : bytes) : option (fvalue * nat) :=
  if ci_prefixb (s2l "infinity") s then Some (FInf false, 8)
  else if ci_prefixb (s2l "inf") s then Some (FInf false, 3)
  else if ci_prefixb (s2l "nan") s then Some (FNaN, 3 + nan_paren (skipn 3 s))
  else None.

Definition lex_unsigned (hex_ok : bool) (s : bytes) : option (fvalue * nat) :=
  match lex_special s with
  | Some r => Some r
  | None =>
      match (if hex_ok then lex_hex s else None) with
      | Some (q, n) => Some (FFin q, n)
      | None =>
          match lex_decimal s with
          | Some (q, n) => Some (FFin q, n)
          | None => None
          end
      end
  end.

(** [std::from_chars(first, last, value)] with [chars_format::general]:
    no leading whitespace, no ['+'], no hexadecimal.  [n] is the number of
    characters matched ([ptr - first]). *)
Inductive fc_result :=
| FcOk (v : fvalue) (n : nat)
| FcRange (n : nat)          (* errc::result_out_of_range *)
| FcInvalid.                 (* errc::invalid_argument *)

Definition from_chars (s : bytes) : fc_result :=
  let '(neg, k) := lex_sign false s in
  match lex_unsigned false (skipn k s) with
  | None => FcInvalid
  | Some (v, n) =>
      let v' := fneg neg v in
      if dbl_range_ok v' then FcOk v' (k + n) else FcRange (k + n)
  end.

(** [std::stod(str)]: [strtod] on the string, which skips leading
    whitespace and converts the longest valid prefix; it throws
    [invalid_argument] when nothing converts and [out_of_range] on ERANGE. *)
Inductive stod_result :=
| StodOk (v : fvalue)
| StodInvalid
| StodRange.

Definition stod (s : bytes) : stod_result :=
  let s1 := skipn (List.length (take_while isspace s)) s in
  let '(neg, k) := lex_sign true s1 in
  match lex_unsigned true (skipn k s1) with
  | None => StodInvalid
  | Some (v, _) =>
      let v' := fneg neg v in
      if dbl_range_ok v' then StodOk v' else StodRange
  end.

(** ** RecordFilter: [parse_c_value] and [extract_word_text] *)

(** The token following the last "c=": up to the next whitespace. *)
Definition c_token (line : bytes) : option bytes :=
  match rfind (s2l "c=") line with
  | None => None
  | Some pos => Some (take_while (fun c => negb (isspace c)) (skipn (pos + 2) line))
  end.

Definition one : fvalue := FFin 1%Q.

Definition parse_c_value (line : bytes) : fvalue :=
  match rfind (s2l "c=") line with
  | None => one                                  (* no c field: keep *)
  | Some pos0 =>
      let pos := pos0 + 2 in
      let tok := take_while (fun c => negb (isspace c)) (skipn pos line) in
      let fallback :=
        match stod tok with
        | StodOk v => v
        | _ => one                                 (* parse failure: keep *)
        end in
      match from_chars tok with
      | FcOk v n => if n =? List.length tok then v else fallback
      | _ => fallback
      end
  end.

Definition tab : ascii := ascii_of_nat 9.
Definition newline : ascii := ascii_of_nat 10.

Definition extract_word_text (line : bytes) : bytes :=
  match find_char tab line 0 with
  | None => line
  | Some first_tab =>
      match find_char tab line (first_tab + 1) with
      | None => substr_from line (first_tab + 1)
      | Some second_tab => substr line (first_tab + 1) (second_tab - first_tab - 1)
      end
  end.

(** ** CompactingRewriter: [clean_userdb_files] *)

(** [while (std::getline(in, line))]: the lines of a file, split at '\n';
    a last segment is a line only when it is non-empty (getline fails when
    it reaches end-of-file without extracting anything). *)
Fixpoint getlines_aux (s cur : bytes) : list bytes :=
  match s with
  | [] => match cur with [] => [] | _ => [rev cur] end
  | c :: s' =>
      if byte_eqb c newline then rev cur :: getlines_aux s' []
      else getlines_aux s' (c :: cur)
  end.

Definition getlines (s : bytes) : list bytes := getlines_aux s [].

(** The state of the per-file loop: the bytes written to the ".cache"
    stream, [delete_item_count] and [deleted_words]. *)
Record rw_state := mk_rw {
  out_buf : bytes;
  delete_item_count : nat;
  deleted_words : list bytes
}.

(** One iteration of the [getline] loop body. *)
Definition compact_step (st : rw_state) (line : bytes) : rw_state :=
  match line with
  | [] => st                                         (* if (line.empty()) continue; *)
  | _ =>
      if gt0 (parse_c_value line) then
        mk_rw (out_buf st ++ line ++ [newline]) (delete_item_count st) (deleted_words st)
      else
        mk_rw (out_buf st) (S (delete_item_count st))
              (deleted_words st ++ [extract_word_text line])
  end.

Definition compact_lines (lines : list bytes) (st : rw_state) : rw_state :=
  fold_left compact_step lines st.

(** The lines the loop writes out, and the lines it drops. *)
Definition keepb (line : bytes) : bool :=
  match line with [] => false | _ => gt0 (parse_c_value line) end.

Definition dropb (line : bytes) : bool :=
  match line with [] => false | _ => negb (gt0 (parse_c_value line)) end.

Definition write_lines (lines : list bytes) : bytes :=
  List.concat (map (fun l => l ++ [newline]) lines).

(** The file system, as far as the rewrite sees it: the contents of the
    regular files, by path ([fs::exists(file) && fs::is_regular_file(file)]
    holds exactly when [fs_file] gives [Some]). *)
Definition fstore := bytes -> option bytes.

Definition fs_update (fs : fstore) (p : bytes) (v : option bytes) : fstore :=
  fun q => if bytes_eqb q p then v else fs q.

Definition cache_path (p : bytes) : bytes := p ++ s2l ".cache".

(** Whether [std::ifstream in(file)] and [std::ofstream out(temp_file)]
    open, per file. *)
Definition open_oracle := bytes -> bool * bool.

(** The body of the [for (const auto& file : files)] loop.  Opening the
    output stream creates (or truncates) "<file>.cache"; on success the
    kept lines are written to it, the original is removed and the
    temporary file renamed over it. *)
Definition clean_one_file (opens : open_oracle) (fs : fstore) (acc : nat * list bytes)
    (file : bytes) : fstore * (nat * list bytes) :=
  match fs file with
  | None => (fs, acc)
  | Some data =>
      let temp := cache_path file in
      let '(in_ok, out_ok) := opens file in
      let fs1 := if out_ok then fs_update fs temp (Some []) else fs in
      if negb (in_ok && out_ok) then (fs1, acc)          (* Failed to open: continue *)
      else
        let st := compact_lines (getlines data) (mk_rw [] (fst acc) (snd acc)) in
        let fs2 := fs_update fs1 temp (Some (out_buf st)) in      (* out.close() *)
        let fs3 := fs_update fs2 file None in                      (* fs::remove *)
        let fs4 := fs_update (fs_update fs3 file (fs3 temp)) temp None in (* fs::rename *)
        (fs4, (delete_item_count st, deleted_words st))
  end.

Fixpoint clean_files_loop (opens : open_oracle) (fs : fstore) (acc : nat * list bytes)
    (files : list bytes) : fstore * (nat * list bytes) :=
  match files with
  | [] => (fs, acc)
  | f :: rest =>
      let '(fs', acc') := clean_one_file opens fs acc f in
      clean_files_loop opens fs' acc' rest
  end.

(** Errors of [fs::remove] and [fs::rename] after a successful rewrite are
    not modelled: both are taken to succeed. *)

(** ** Filesystem queries that may throw *)

(** A computation that may throw [fs::filesystem_error]. *)
Inductive res (A : Type) :=
| Ok (a : A)
| Raise.
Arguments Ok {A} a.
Arguments Raise {A}.

Definition res_bind {A B} (m : res A) (f : A -> res B) : res B :=
  match m with Ok a => f a | Raise => Raise end.

Notation "'let*' x := m 'in' f" := (res_bind m (fun x => f))
  (at level 200, x name, m at level 100, f at level 200).

(** What [fs::status] reports for a path; [StErr] is an OS error other
    than "not found" (e.g. access denied), on which the throwing
    overloads of [fs::exists] and [fs::is_directory] throw. *)
Inductive fstat := StNotFound | StDir | StOther | StErr.

Definition fs_exists (stat : bytes -> fstat) (p : bytes) : res bool :=
  match stat p with StErr => Raise | StNotFound => Ok false | _ => Ok true end.

Definition fs_is_directory (stat : bytes -> fstat) (p : bytes) : res bool :=
  match stat p with StErr => Raise | StDir => Ok true | _ => Ok false end.

(** [fs::exists(p) && fs::is_directory(p)], with C++ short-circuit. *)
Definition exists_dir (stat : bytes -> fstat) (p : bytes) : res bool :=
  let* e := fs_exists stat p in
  if e then fs_is_directory stat p else Ok false.

(** ** PathResolver: [get_sync_directory] *)

Inductive platform := Windows | OtherOS.

Definition backslash : ascii := ascii_of_nat 92.
Definition slash : ascii := ascii_of_nat 47.

Definition is_separator (plat : platform) (c : ascii) : bool :=
  match plat with
  | Windows => byte_eqb c backslash || byte_eqb c slash
  | OtherOS => byte_eqb c slash
  end.

Definition preferred_separator (plat : platform) : ascii :=
  match plat with Windows => backslash | OtherOS => slash end.

(** [p / q] for a relative [q] without root name: a separator is inserted
    unless [p] is empty or already ends in one. *)
Definition path_join (plat : platform) (p q : bytes) : bytes :=
  match rev p with
  | [] => q
  | c :: _ => if is_separator plat c then p ++ q else p ++ [preferred_separator plat] ++ q
  end.

(** The Windows-only loop replacing every "\\\\" by "\\", resuming the
    search just after the inserted character. *)
Fixpoint collapse_backslashes (s : bytes) : bytes :=
  match s with
  | b1 :: s' =>
      match s' with
      | b2 :: r =>
          if byte_eqb b1 backslash && byte_eqb b2 backslash
          then backslash :: collapse_backslashes r
          else b1 :: collapse_backslashes s'
      | [] => [b1]
      end
  | [] => []
  end.

(** The host side of the resolution: [get_sync_dir_s], [get_user_data_dir_s]
    and the [sync_dir] string that [Config::LoadFromFile(installation.yaml)]
    followed by [GetString("sync_dir")] yields ([None] when loading fails or
    the key is absent). *)
Record host := mk_host {
  h_plat : platform;
  h_stat : bytes -> fstat;
  h_api_sync_dir : bytes;
  h_user_data_dir : bytes;
  h_yaml_sync_dir : option bytes
}.

Definition get_sync_directory (h : host) : res bytes :=
  let stat := h_stat h in
  let plat := h_plat h in
  (* method 1: get_sync_dir_s *)
  let sync_path := h_api_sync_dir h in
  let* ok1 := exists_dir stat sync_path in
  if ok1 then Ok sync_path else
  (* method 2: sync_dir of installation.yaml *)
  let user_path := h_user_data_dir h in
  let inst_file := path_join plat user_path (s2l "installation.yaml") in
  let* inst_exists := fs_exists stat inst_file in
  let* found :=
    if inst_exists then
      match h_yaml_sync_dir h with
      | Some custom =>
          let sp := match plat with
                    | Windows => collapse_backslashes custom
                    | OtherOS => custom
                    end in
          let* ok2 := exists_dir stat sp in
          Ok (if ok2 then Some sp else None)
      | None => Ok None
      end
    else Ok None in
  match found with
  | Some sp => Ok sp
  | None =>
      (* method 3: <user_data_dir>/sync, returned even when absent *)
      let sp := path_join plat user_path (s2l "sync") in
      let* ok3 := exists_dir stat sp in
      if ok3 then Ok sp else Ok sp
  end.

(** ** DirectoryScanner and allow-list filtering *)

(** An entry produced by a directory iterator: its path, its file name and
    what [entry.is_directory()] / [entry.is_regular_file()] report. *)
Record dir_entry := mk_entry {
  entry_path : bytes;
  entry_name : bytes;
  entry_is_dir : bool;
  entry_is_reg : bool
}.

Definition should_clean_userdb (db_name : bytes) (cleanup_list : list bytes) : bool :=
  match cleanup_list with
  | [] => true
  | _ => existsb (fun allowed_db => bytes_eqb db_name allowed_db) cleanup_list
  end.

(** [name_len > suffix_len && name.substr(name_len - suffix_len) == suffix] *)
Definition ends_with (suffix name : bytes) : bool :=
  (List.length suffix <? List.length name) &&
  bytes_eqb (skipn (List.length name - List.length suffix) name) suffix.

Definition strip_suffix (suffix name : bytes) : bytes :=
  firstn (List.length name - List.length suffix) name.

Definition sfx_userdb : bytes := s2l ".userdb".
Definition sfx_userdb_txt : bytes := s2l ".userdb.txt".

(** [extract_userdb_name]: [is_dir] is what [fs::is_directory(path)] says. *)
Definition extract_userdb_name (is_dir : bool) (filename : bytes) : bytes :=
  if is_dir && ends_with sfx_userdb filename then strip_suffix sfx_userdb filename
  else if ends_with sfx_userdb_txt filename then strip_suffix sfx_userdb_txt filename
  else filename.

(** Deduplicated insertion into [cleaned_folders] / [cleaned_files]. *)
Definition add_unique (x : bytes) (l : list bytes) : list bytes :=
  if existsb (bytes_eqb x) l then l else l ++ [x].

(** The loop of [get_userdb_folders] (resp. [get_userdb_files]) over the
    entries of the iterator: [kind] selects directories (resp. regular
    files), [suffix] is ".userdb" (resp. ".userdb.txt"). *)
Fixpoint scan_entries (kind : dir_entry -> bool) (suffix : bytes)
    (cleanup_list : list bytes) (es : list dir_entry) (cleaned : list bytes)
  : list bytes * list bytes :=
  match es with
  | [] => ([], cleaned)
  | e :: rest =>
      if kind e && ends_with suffix (entry_name e) then
        let db_name := extract_userdb_name (entry_is_dir e) (entry_name e) in
        if should_clean_userdb db_name cleanup_list then
          let '(r, c) := scan_entries kind suffix cleanup_list rest
                           (add_unique (db_name ++ suffix) cleaned) in
          (entry_path e :: r, c)
        else scan_entries kind suffix cleanup_list rest cleaned
      else scan_entries kind suffix cleanup_list rest cleaned
  end.

(** ** The cleanup task: [process_clean_task] *)

(** The rest of the environment of a run: the entries of
    [fs::directory_iterator] and [fs::recursive_directory_iterator] for a
    directory, whether [fs::remove] of a path succeeds (does not throw),
    and which streams of the rewrite open. *)
Record env := mk_env {
  e_host : host;
  e_children : bytes -> list dir_entry;
  e_tree : bytes -> list dir_entry;
  e_remove_ok : bytes -> bool;
  e_opens : open_oracle
}.

Definition get_userdb_folders (en : env) (dir : bytes) (cleanup_list cleaned : list bytes)
  : res (list bytes * list bytes) :=
  let stat := h_stat (e_host en) in
  let* ex := fs_exists stat dir in
  if negb ex then Ok ([], cleaned) else
  let* isd := fs_is_directory stat dir in
  if negb isd then Ok ([], cleaned) else
  Ok (scan_entries entry_is_dir sfx_userdb cleanup_list (e_children en dir) cleaned).

(** The inner loop of [clean_userdb_folders]: every direct child is removed;
    a failing [fs::remove] is caught and not counted. *)
Fixpoint purge_children (remove_ok : bytes -> bool) (children : list dir_entry) : nat :=
  match children with
  | [] => 0
  | c :: rest =>
      (if remove_ok (entry_path c) then 1 else 0) + purge_children remove_ok rest
  end.

Fixpoint purge_folders (en : env) (folders : list bytes) : nat :=
  match folders with
  | [] => 0
  | f :: rest => purge_children (e_remove_ok en) (e_children en f) + purge_folders en rest
  end.

(** [clean_userdb_folders]: returns [deleted_files_count] and the updated
    [cleaned_folders]. *)
Definition clean_userdb_folders (en : env) (cleanup_list cleaned_folders : list bytes)
  : res (nat * list bytes) :=
  let* r := get_userdb_folders en (h_user_data_dir (e_host en)) cleanup_list cleaned_folders in
  let '(folders, cleaned') := r in
  Ok (purge_folders en folders, cleaned').

Definition get_userdb_files (en : env) (cleanup_list cleaned : list bytes)
  : res (list bytes * list bytes) :=
  let* sync_path := get_sync_directory (e_host en) in
  let* ok := exists_dir (h_stat (e_host en)) sync_path in
  if negb ok then Ok ([], cleaned) else
  Ok (scan_entries entry_is_reg sfx_userdb_txt cleanup_list (e_tree en sync_path) cleaned).

(** [clean_userdb_files]: the rewritten store, [delete_item_count], and the
    updated [cleaned_files] and [deleted_words]. *)
Definition clean_userdb_files (en : env) (fs : fstore)
    (cleanup_list cleaned_files deleted_words : list bytes)
  : res (fstore * nat * list bytes * list bytes) :=
  let* r := get_userdb_files en cleanup_list cleaned_files in
  let '(files, cleaned') := r in
  let '(fs', (cnt, words)) := clean_files_loop (e_opens en) fs (0, deleted_words) files in
  Ok (fs', cnt, cleaned', words).

(** What [send_clean_msg] receives. *)
Record clean_report := mk_report {
  report_delete_item_count : nat;
  report_cleaned_folders : list bytes;
  report_cleaned_files : list bytes;
  report_deleted_words : list bytes;
  report_full_information_display : bool
}.

(** [process_clean_task]: the report handed to [send_clean_msg], together
    with [folder_deleted_count] (computed by the code, not reported) and the
    store after the rewrite.  [Raise] is an exception leaving the task. *)
Definition process_clean_task (en : env) (fs : fstore) (cleanup_list : list bytes)
    (full_information_display : bool) : res (clean_report * nat * fstore) :=
  let* fr := clean_userdb_folders en cleanup_list [] in
  let '(folder_deleted_count, cleaned_folders) := fr in
  let* r := clean_userdb_files en fs cleanup_list [] [] in
  let '(fs', file_deleted_count, cleaned_files, deleted_words) := r in
  let total_notification_count := file_deleted_count in
  Ok (mk_report total_notification_count cleaned_folders cleaned_files deleted_words
                full_information_display, folder_deleted_count, fs').

(** ** SingleFlightRunner *)

Module SingleFlight.

(** A cleanup task: the closure started by [ProcessKeyEvent], capturing the
    cleanup list and the display flag. *)
Definition task := (list bytes * bool)%type.

(** Modelled from the spec: [DetachedThreadManager::try_start] (declared in
    lib/detached_thread_manager.hpp, which is not among the sources), after
    §4.6 and §9: one shared in-flight flag; [try_start] refuses without
    running the task while the flag is set, otherwise sets it and starts
    the task on a detached thread; completion of the task, successful or
    not, clears the flag.  The state also holds the files the tasks act on. *)
Record gstate := mk_g {
  busy : bool;
  running : list task;
  files : fstore
}.

Definition try_start (t : task) (g : gstate) : bool * gstate :=
  if busy g then (false, g)
  else (true, mk_g true [t] (files g)).

(** How a running task ends: normally, or by an exception; either way with
    the files it left behind. *)
Inductive outcome := Succeeded (fs : fstore) | Failed (fs : fstore).

Definition outcome_files (o : outcome) : fstore :=
  match o with Succeeded fs => fs | Failed fs => fs end.

Definition complete (o : outcome) (g : gstate) : gstate :=
  mk_g false [] (outcome_files o).

(** The interleavings: a trigger calls [try_start]; a running task ends. *)
Inductive step : gstate -> gstate -> Prop :=
| step_try : forall t g b g', try_start t g = (b, g') -> step g g'
| step_complete : forall t o g, running g = [t] -> step g (complete o g).

Inductive reachable (g0 : gstate) : gstate -> Prop :=
| reach_init : reachable g0 g0
| reach_step : forall g g', reachable g0 g -> step g g' -> reachable g0 g'.

Definition idle (fs : fstore) : gstate := mk_g false [] fs.

End SingleFlight.

(** ** The trigger: [UserdbCleaner::ProcessKeyEvent] *)

Inductive process_result := kRejected | kAccepted | kNoop.

(** Returns the result, the input buffer afterwards and the runner state.
    The body is compiled on Windows only. *)
Definition process_key_event (plat : platform) (trigger_input : bytes)
    (cleanup_userdb_list : list bytes) (full_information_display : bool)
    (input : bytes) (g : SingleFlight.gstate)
  : process_result * bytes * SingleFlight.gstate :=
  match plat with
  | Windows =>
      if bytes_eqb input trigger_input then
        let input' := [] in                                      (* ctx->Clear() *)
        let '(started, g') :=
          SingleFlight.try_start (cleanup_userdb_list, full_information_display) g in
        if started then (kAccepted, input', g') else (kNoop, input', g')
      else (kNoop, input, g)
  | OtherOS => (kNoop, input, g)
  end.

(** Scenario B of the spec, with an ASCII label. *)
Definition scenario_b_line : bytes :=
  s2l "wu xiao" ++ tab :: s2l "wx" ++ tab :: s2l "c=-1 d=0.1 t=50".

(** A sync text file with one valid and one invalid entry. *)
Definition demo_file : bytes := s2l "luna_pinyin.userdb.txt".

Definition demo_data : bytes :=
  s2l "ni hao" ++ tab :: s2l "nh" ++ tab :: s2l "c=1 d=0.5 t=100" ++ [newline] ++
  scenario_b_line ++ [newline].

Definition demo_fs : fstore :=
  fun q => if bytes_eqb q demo_file then Some demo_data else None.

(** A directory listing: two legacy folders. *)
Definition demo_entries : list dir_entry :=
  [mk_entry (s2l "/u/foo.userdb") (s2l "foo.userdb") true false;
   mk_entry (s2l "/u/bar.userdb") (s2l "bar.userdb") true false].

(** Hosts for the resolution: one whose status queries all fail, and a
    non-Windows one whose installation.yaml names a directory with a
    doubled backslash. *)
Definition err_host : host :=
  mk_host Windows (fun _ => StErr) (s2l "C:\Rime\sync") (s2l "C:\Rime") None.

Definition posix_host : host :=
  mk_host OtherOS
    (fun p => if bytes_eqb p (s2l "/data/a\\b") then StDir
              else if bytes_eqb p (s2l "/home/u/installation.yaml") then StOther
              else StNotFound)
    (s2l "/api/sync") (s2l "/home/u") (Some (s2l "/data/a\\b")).

(** A Windows host whose API sync directory is absent and whose
    installation.yaml cannot be queried. *)
Definition inst_err_host : host :=
  mk_host Windows
    (fun p => if bytes_eqb p (s2l "C:\Rime\installation.yaml") then StErr else StNotFound)
    (s2l "C:\Rime\sync") (s2l "C:\Rime") None.

(** A run: user directory "C:\Rime" with one legacy folder holding two
    files (the removal of the second fails), and a sync directory holding
    [demo_file]. *)
Definition demo_user : bytes := s2l "C:\Rime".
Definition demo_sync : bytes := s2l "C:\Rime\sync".
Definition demo_folder : bytes := s2l "C:\Rime\foo.userdb".

Definition demo_host : host :=
  mk_host Windows
    (fun p => if bytes_eqb p demo_user || bytes_eqb p demo_sync then StDir
              else StNotFound)
    demo_sync demo_user None.

Definition demo_env : env :=
  mk_env demo_host
    (fun d => if bytes_eqb d demo_user then
                [mk_entry demo_folder (s2l "foo.userdb") true false]
              else if bytes_eqb d demo_folder then
                [mk_entry (s2l "C:\Rime\foo.userdb\a.bin") (s2l "a.bin") false true;
                 mk_entry (s2l "C:\Rime\foo.userdb\b.bin") (s2l "b.bin") false true]
              else [])
    (fun d => if bytes_eqb d demo_sync then
                [mk_entry demo_file demo_file false true]
              else [])
    (fun p => negb (bytes_eqb p (s2l "C:\Rime\foo.userdb\b.bin")))
    (fun _ => (true, true)).

(** ** Configuration: [UserdbCleaner::InitializeConfig] *)

(** An item of the [cleanup_userdb_list] node: a scalar, for which
    [GetValueAt] yields a [ConfigValue] whose [GetString] succeeds, or
    anything else (a list, a map, null), for which it yields null. *)
Inductive cfg_item := CfgScalar (s : bytes) | CfgOther.

(** The schema configuration as the processor reads it: [GetString],
    [GetList] and [GetBool] of a key, [None] when the call fails (the key
    is absent or its node has another type). *)
Record schema_config := mk_config {
  cfg_get_string : bytes -> option bytes;
  cfg_get_list : bytes -> option (list cfg_item);
  cfg_get_bool : bytes -> option bool
}.

(** The members of [UserdbCleaner] read from the configuration. *)
Record cleaner := mk_cleaner {
  trigger_input_ : bytes;
  cleanup_userdb_list_ : list bytes;
  full_information_display_ : bool
}.

(** The member initialisers of userdb_cleaner.hpp. *)
Definition default_cleaner : cleaner := mk_cleaner (s2l "/del") [] false.

Definition key_trigger_input : bytes := s2l "userdb_cleaner/trigger_input".
Definition key_cleanup_userdb_list : bytes := s2l "userdb_cleaner/cleanup_userdb_list".
Definition key_full_information_display : bytes :=
  s2l "userdb_cleaner/full_information_display".

(** The loop over the list items: [push_back] of each item whose string is read. *)
Definition push_items (l : list bytes) (items : list cfg_item) : list bytes :=
  fold_left (fun acc it => match it with CfgScalar s => acc ++ [s] | CfgOther => acc end)
    items l.

(** [InitializeConfig]; [None] stands for a null engine, schema or config,
    on which it returns at once.  A failing [GetString] / [GetBool] leaves
    the member as it is. *)
Definition initialize_config (cfg : option schema_config) (c : cleaner) : cleaner :=
  match cfg with
  | None => c
  | Some k =>
      let t := match cfg_get_string k key_trigger_input with
               | Some s => s
               | None => trigger_input_ c
               end in
      let l := match cfg_get_list k key_cleanup_userdb_list with
               | Some items => push_items [] items       (* clear(), then push_back *)
               | None => cleanup_userdb_list_ c
               end in
      let f := match cfg_get_bool k key_full_information_display with
               | Some b => b
               | None => full_information_display_ c
               end in
      mk_cleaner t l f
  end.

(** The constructor [UserdbCleaner(ticket)]. *)
Definition make_cleaner (cfg : option schema_config) : cleaner :=
  initialize_config cfg default_cleaner.

(** [ProcessKeyEvent] of a constructed processor. *)
Definition cleaner_process_key_event (plat : platform) (c : cleaner) (input : bytes)
    (g : SingleFlight.gstate) : process_result * bytes * SingleFlight.gstate :=
  process_key_event plat (trigger_input_ c) (cleanup_userdb_list_ c)
    (full_information_display_ c) input g.

(** ** The notification: [send_clean_msg]

    On Windows builds the function shows a message box; the macOS and Linux
    branches only write to the log.  Modelled: the text of the message box,
    as UTF-16 code units. *)

Definition wstring := list N.

Definition wascii (s : string) : wstring := map N_of_ascii (list_ascii_of_string s).

Definition w_blank : wstring := [10; 10]%N.
Definition w_comma : wstring := wascii ", ".

(** The wide literals of [send_clean_msg]. *)
Definition w_title : wstring :=
  [0x7528; 0x6237; 0x8bcd; 0x5178; 0x6e05; 0x7406; 0x5de5; 0x5177]%N.
Definition w_done : wstring :=
  [0x7528; 0x6237; 0x8bcd; 0x5178; 0x6e05; 0x7406; 0x5b8c; 0x6210; 0x3002; 10]%N.
Definition w_deleted_pre : wstring := [0x5220; 0x9664; 0x4e86; 32]%N.
Definition w_deleted_post : wstring := [32; 0x4e2a; 0x65e0; 0x6548; 0x8bcd; 0x6761; 0x3002]%N.
Definition w_none : wstring :=
  [0x672a; 0x627e; 0x5230; 0x9700; 0x8981; 0x6e05; 0x7406; 0x7684; 0x65e0; 0x6548;
   0x8bcd; 0x6761; 0x3002]%N.
Definition w_folders_hdr : wstring :=
  [0x6e05; 0x7406; 0x7684]%N ++ wascii " userdb " ++ [0x6587; 0x4ef6; 0x5939]%N ++
  wascii ":" ++ [10%N].
Definition w_files_hdr : wstring :=
  [0x6e05; 0x7406; 0x7684]%N ++ wascii " userdb.txt " ++ [0x6587; 0x4ef6]%N ++
  wascii ":" ++ [10%N].
Definition w_words_hdr : wstring :=
  [0x5220; 0x9664; 0x7684; 0x8bcd; 0x6761]%N ++ wascii ":" ++ [10%N].

(** [std::to_wstring] of a non-negative count: its decimal digits. *)
Fixpoint uint_wdigits (u : Decimal.uint) : wstring :=
  match u with
  | Decimal.Nil => []
  | Decimal.D0 u => 48%N :: uint_wdigits u
  | Decimal.D1 u => 49%N :: uint_wdigits u
  | Decimal.D2 u => 50%N :: uint_wdigits u
  | Decimal.D3 u => 51%N :: uint_wdigits u
  | Decimal.D4 u => 52%N :: uint_wdigits u
  | Decimal.D5 u => 53%N :: uint_wdigits u
  | Decimal.D6 u => 54%N :: uint_wdigits u
  | Decimal.D7 u => 55%N :: uint_wdigits u
  | Decimal.D8 u => 56%N :: uint_wdigits u
  | Decimal.D9 u => 57%N :: uint_wdigits u
  end.

Definition to_wstring (n : nat) : wstring := uint_wdigits (Nat.to_uint n).

Definition nul : ascii := ascii_of_nat 0.

(** [s.c_str()] as a NUL-terminated string: the bytes before the first NUL. *)
Definition c_str (s : bytes) : bytes := take_while (fun c => negb (byte_eqb c nul)) s.

(** [if (!w.empty() && w.back() == L'\0') w.pop_back();] *)
Definition pop_nul (w : wstring) : wstring :=
  match rev w with
  | N0 :: r => rev r
  | _ => w
  end.

(** The two calls [MultiByteToWideChar(CP_UTF8, 0, s.c_str(), -1, ...)]:
    [mb2wc] gives the UTF-16 units written for a NUL-terminated byte string,
    its terminating NUL included, and [] when the call fails (returns 0);
    the item is appended only when [wide_length > 0]. *)
Definition to_wide (mb2wc : bytes -> wstring) (s : bytes) : option wstring :=
  match mb2wc (c_str s) with
  | [] => None
  | w => Some (pop_nul w)
  end.

(** The loops over [cleaned_folders] / [cleaned_files]: [", "] before every
    item but the first. *)
Fixpoint join_names (mb2wc : bytes -> wstring) (i : nat) (l : list bytes) : wstring :=
  match l with
  | [] => []
  | x :: r =>
      (if 0 <? i then w_comma else []) ++
      match to_wide mb2wc x with Some w => w | None => [] end ++
      join_names mb2wc (S i) r
  end.

(** The loop over [deleted_words]: a line break before every item whose
    index is a non-zero multiple of 5, [", "] before the other items but the
    first; each item in brackets. *)
Fixpoint join_words (mb2wc : bytes -> wstring) (i : nat) (l : list bytes) : wstring :=
  match l with
  | [] => []
  | x :: r =>
      (if 0 <? i then (if i mod 5 =? 0 then [10%N] else w_comma) else []) ++
      match to_wide mb2wc x with Some w => [91%N] ++ w ++ [93%N] | None => [] end ++
      join_words mb2wc (S i) r
  end.

Definition send_clean_msg (mb2wc : bytes -> wstring) (delete_item_count : nat)
    (cleaned_folders cleaned_files deleted_words : list bytes)
    (full_information_display : bool) : wstring :=
  if 0 <? delete_item_count then
    w_done ++ w_deleted_pre ++ to_wstring delete_item_count ++ w_deleted_post ++
    (if full_information_display then
       w_blank ++
       match cleaned_folders with
       | [] => []
       | _ => w_folders_hdr ++ join_names mb2wc 0 cleaned_folders ++ w_blank
       end ++
       match cleaned_files with
       | [] => []
       | _ => w_files_hdr ++ join_names mb2wc 0 cleaned_files ++ w_blank
       end ++
       match deleted_words with
       | [] => []
       | _ => w_words_hdr ++ join_words mb2wc 0 deleted_words
       end
     else [])
  else
    w_done ++ w_none ++
    (if full_information_display then
       w_blank ++
       match cleaned_folders with
       | [] => []
       | _ => w_folders_hdr ++ join_names mb2wc 0 cleaned_folders ++ w_blank
       end ++
       match cleaned_files with
       | [] => []
       | _ => w_files_hdr ++ join_names mb2wc 0 cleaned_files
       end
     else []).

(** ** Layouts used in the statements *)

(** Lists joined by a separator. *)
Fixpoint join_with {A : Type} (sep : list A) (l : list (list A)) : list A :=
  match l with
  | [] => []
  | [x] => x
  | x :: r => x ++ sep ++ join_with sep r
  end.

(** A list cut into rows of five ([fuel] bounds the number of rows). *)
Fixpoint rows_of_five {A : Type} (fuel : nat) (l : list A) : list (list A) :=
  match fuel with
  | 0 => []
  | S f => match l with [] => [] | _ => firstn 5 l :: rows_of_five f (skipn 5 l) end
  end.

Definition rows5 {A : Type} (l : list A) : list (list A) := rows_of_five (List.length l) l.

(** Doubling every backslash, as a path is written inside a double-quoted
    YAML string. *)
Definition escape_backslashes (s : bytes) : bytes :=
  flat_map (fun c => if byte_eqb c backslash then [c; c] else [c]) s.

(** More hosts and configurations for the examples. *)
Definition escaped_host : host :=
  mk_host Windows
    (fun p => if bytes_eqb p (s2l "D:\Sync\Rime") then StDir
              else if bytes_eqb p (s2l "C:\Rime\installation.yaml") then StOther
              else StNotFound)
    (s2l "C:\Rime\sync") (s2l "C:\Rime") (Some (s2l "D:\\Sync\\Rime")).

Definition posix_env : env :=
  mk_env posix_host (fun _ => []) (fun _ => []) (fun _ => true) (fun _ => (true, true)).

Definition err_env : env :=
  mk_env err_host (fun _ => []) (fun _ => []) (fun _ => true) (fun _ => (true, true)).

Definition demo_config : schema_config :=
  mk_config (fun k => if bytes_eqb k key_trigger_input then Some [] else None)
    (fun k => if bytes_eqb k key_cleanup_userdb_list
              then Some [CfgOther; CfgScalar (s2l "luna_pinyin"); CfgOther] else None)
    (fun _ => None).

(** A conversion that maps each byte to one unit (exact on ASCII text). *)
Definition ascii_mb2wc (s : bytes) : wstring := map N_of_ascii s ++ [0%N].

(** * Properties *)

(** ** Byte strings *)

Lemma byte_eqb_true (a b : ascii) : byte_eqb a b = true <-> a = b.
Proof. unfold byte_eqb. apply Ascii.eqb_eq. Qed.

Lemma byte_eqb_refl (a : ascii) : byte_eqb a a = true.
Proof. apply byte_eqb_true. reflexivity. Qed.

Lemma byte_eqb_false (a b : ascii) : a <> b -> byte_eqb a b = false.
Proof.
  intros H. destruct (byte_eqb a b) eqn:E; [|reflexivity].
  apply byte_eqb_true in E. contradiction.
Qed.

Lemma bytes_eqb_true (a b : bytes) : bytes_eqb a b = true <-> a = b.
Proof.
  revert b; induction a as [|x a IH]; intros [|y b]; simpl; split; intro H;
    try discriminate; try reflexivity.
  - apply andb_true_iff in H as [H1 H2].
    apply byte_eqb_true in H1; apply IH in H2; subst; reflexivity.
  - injection H as -> ->. rewrite byte_eqb_refl. simpl. apply IH. reflexivity.
Qed.

Lemma bytes_eqb_refl (a : bytes) : bytes_eqb a a = true.
Proof. apply bytes_eqb_true. reflexivity. Qed.

Lemma bytes_eqb_false (a b : bytes) : a <> b -> bytes_eqb a b = false.
Proof.
  intros H. destruct (bytes_eqb a b) eqn:E; [|reflexivity].
  apply bytes_eqb_true in E. contradiction.
Qed.

Create HintDb bytes_db.
#[export] Hint Resolve byte_eqb_refl bytes_eqb_refl : bytes_db.

(** ** [std::string::find] *)

Lemma find_from_skip (c : ascii) (a s : bytes) (i from : nat) :
  i + List.length a <= from ->
  find_from c (a ++ s) i from = find_from c s (i + List.length a) from.
Proof.
  revert i; induction a as [|x a IH]; intros i H; simpl.
  - rewrite Nat.add_0_r. reflexivity.
  - simpl in H. destruct (from <=? i) eqn:E.
    + apply Nat.leb_le in E. lia.
    + simpl. rewrite IH by lia. f_equal. lia.
Qed.

Lemma find_from_first (c : ascii) (a s : bytes) (i from : nat) :
  ~ In c a -> from <= i ->
  find_from c (a ++ c :: s) i from = Some (i + List.length a).
Proof.
  revert i; induction a as [|x a IH]; intros i Hn H; simpl.
  - apply Nat.leb_le in H. rewrite H, byte_eqb_refl. simpl. rewrite Nat.add_0_r. reflexivity.
  - apply Nat.leb_le in H as H'. rewrite H'.
    rewrite byte_eqb_false by (intro; subst; apply Hn; left; reflexivity).
    simpl. rewrite IH by (try (intro; apply Hn; right; assumption); lia).
    f_equal. lia.
Qed.

Lemma find_from_none (c : ascii) (a : bytes) (i from : nat) :
  ~ In c a -> find_from c a i from = None.
Proof.
  revert i; induction a as [|x a IH]; intros i Hn; simpl; [reflexivity|].
  rewrite byte_eqb_false by (intro; subst; apply Hn; left; reflexivity).
  rewrite andb_false_r. apply IH. intro; apply Hn; right; assumption.
Qed.

(** ** RecordFilter *)

Lemma parse_c_value_token (line t : bytes) (v : fvalue) :
  c_token line = Some t -> from_chars t = FcOk v (List.length t) ->
  parse_c_value line = v.
Proof.
  unfold c_token, parse_c_value. intros Ht Hf.
  destruct (rfind (s2l "c=") line) as [pos|]; [|discriminate].
  injection Ht as Ht. rewrite Ht, Hf, Nat.eqb_refl. reflexivity.
Qed.

Lemma parse_c_value_no_token (line : bytes) :
  c_token line = None -> parse_c_value line = one.
Proof.
  unfold c_token, parse_c_value. destruct (rfind (s2l "c=") line); [discriminate|].
  reflexivity.
Qed.

Lemma skipn_past_char (a b : bytes) (x : ascii) :
  skipn (List.length a + 1) (a ++ x :: b) = b.
Proof. induction a as [|y a IH]; simpl; auto. Qed.

Lemma firstn_length_app (b r : bytes) : firstn (List.length b) (b ++ r) = b.
Proof. induction b as [|y b IH]; simpl; [reflexivity|]. rewrite IH. reflexivity. Qed.

(** C8. Label extraction: the label of a line is the text strictly between
    its first two tabs; with a single tab, the text after it; with no tab,
    the whole line.  It is a function of the line alone. *)
Theorem extract_word_text_cases (line a b r : bytes) :
  (~ In tab line -> extract_word_text line = line) /\
  (~ In tab a -> ~ In tab b -> extract_word_text (a ++ tab :: b) = b) /\
  (~ In tab a -> ~ In tab b -> extract_word_text (a ++ tab :: b ++ tab :: r) = b).
Proof.
  unfold extract_word_text, find_char. split; [|split].
  - intro H. rewrite find_from_none by exact H. reflexivity.
  - intros Ha Hb. rewrite find_from_first by (auto; lia). simpl.
    rewrite find_from_skip by (simpl; lia). simpl.
    destruct (List.length a + 1 <=? List.length a) eqn:E;
      [apply Nat.leb_le in E; lia|].
    rewrite find_from_none by exact Hb.
    unfold substr_from. apply skipn_past_char.
  - intros Ha Hb. rewrite find_from_first by (auto; lia). simpl.
    rewrite find_from_skip by (simpl; lia). simpl.
    destruct (List.length a + 1 <=? List.length a) eqn:E;
      [apply Nat.leb_le in E; lia|].
    rewrite find_from_first by (auto; lia).
    rewrite andb_false_l. cbv iota beta. unfold substr. rewrite skipn_past_char.
    replace (S (List.length a) + List.length b - List.length a - 1) with (List.length b)
      by lia.
    apply firstn_length_app.
Qed.

Lemma extract_word_text_cases_witness :
  ~ In tab (s2l "wu xiao") /\ ~ In tab (s2l "wx") /\
  extract_word_text scenario_b_line = s2l "wx".
Proof.
  assert (Ha : ~ In tab (s2l "wu xiao")) by (simpl; intuition discriminate).
  assert (Hb : ~ In tab (s2l "wx")) by (simpl; intuition discriminate).
  split; [exact Ha|]. split; [exact Hb|].
  exact (proj2 (proj2 (extract_word_text_cases [] (s2l "wu xiao") (s2l "wx")
           (s2l "c=-1 d=0.1 t=50"))) Ha Hb).
Defined.

(** ** The two number parsers agree on tokens [from_chars] parses whole *)

Lemma lower_is_x (x : ascii) : lower x = "x"%char -> x = "x"%char \/ x = "X"%char.
Proof.
  unfold lower. destruct ((65 <=? nat_of_ascii x) && (nat_of_ascii x <=? 90)) eqn:E.
  - intro H. right. apply andb_true_iff in E as [E1 E2].
    apply Nat.leb_le in E1; apply Nat.leb_le in E2.
    apply (f_equal nat_of_ascii) in H.
    rewrite nat_ascii_embedding in H by lia.
    rewrite <- (ascii_nat_embedding x).
    change (nat_of_ascii "x"%char) with 120 in H.
    replace (nat_of_ascii x) with 88 by lia. reflexivity.
  - intro H. left. exact H.
Qed.

Lemma lex_hex_shape (u : bytes) (p : Q * nat) :
  lex_hex u = Some p -> exists x r, u = "0"%char :: x :: r /\ lower x = "x"%char.
Proof.
  unfold lex_hex. destruct u as [|z [|x r]]; try discriminate.
  destruct (byte_eqb z "0"%char && byte_eqb (lower x) "x"%char) eqn:E; [|discriminate].
  intros _. apply andb_true_iff in E as [E1 E2].
  apply byte_eqb_true in E1; apply byte_eqb_true in E2. subst.
  exists x, r. split; [reflexivity | exact E2].
Qed.

(** On "0x...", the decimal grammar stops after the "0". *)
Lemma lex_decimal_hex_prefix (x : ascii) (r : bytes) :
  lower x = "x"%char -> exists q, lex_decimal ("0"%char :: x :: r) = Some (q, 1).
Proof.
  intro H. destruct (lower_is_x x H) as [-> | ->]; eexists; reflexivity.
Qed.

Lemma lex_unsigned_whole (u : bytes) (w : fvalue) :
  lex_unsigned false u = Some (w, List.length u) ->
  lex_unsigned true u = Some (w, List.length u).
Proof.
  unfold lex_unsigned. destruct (lex_special u) as [p|]; [auto|].
  destruct (lex_hex u) as [p|] eqn:Eh; [|auto].
  intro H. exfalso.
  destruct (lex_hex_shape u p Eh) as [x [r [-> Hx]]].
  destruct (lex_decimal_hex_prefix x r Hx) as [q Hq].
  simpl in H. rewrite Hq in H. injection H as _ Hl. discriminate Hl.
Qed.

Lemma isspace_cases (c : ascii) :
  isspace c = true ->
  c = ascii_of_nat 32 \/ c = ascii_of_nat 9 \/ c = ascii_of_nat 10 \/
  c = ascii_of_nat 11 \/ c = ascii_of_nat 12 \/ c = ascii_of_nat 13.
Proof.
  unfold isspace. intro H. rewrite <- (ascii_nat_embedding c).
  apply orb_true_iff in H as [H|H].
  - apply Nat.eqb_eq in H. rewrite H. left. reflexivity.
  - apply andb_true_iff in H as [H1 H2].
    apply Nat.leb_le in H1; apply Nat.leb_le in H2.
    assert (nat_of_ascii c = 9 \/ nat_of_ascii c = 10 \/ nat_of_ascii c = 11 \/
            nat_of_ascii c = 12 \/ nat_of_ascii c = 13) as Hc by lia.
    destruct Hc as [E|[E|[E|[E|E]]]]; rewrite E; tauto.
Qed.

Lemma lex_unsigned_space (b : bool) (c : ascii) (s : bytes) :
  isspace c = true -> lex_unsigned b (c :: s) = None.
Proof.
  intro H. destruct (isspace_cases c H) as [E|[E|[E|[E|[E|E]]]]]; subst c;
    destruct b, s; reflexivity.
Qed.

Lemma lex_unsigned_plus (s : bytes) : lex_unsigned false ("+"%char :: s) = None.
Proof. destruct s; reflexivity. Qed.

Lemma from_chars_whole_stod (t : bytes) (v : fvalue) :
  from_chars t = FcOk v (List.length t) -> stod t = StodOk v.
Proof.
  unfold from_chars, stod. destruct t as [|c s].
  - simpl. discriminate.
  - destruct (isspace c) eqn:Hsp.
    + assert (lex_sign false (c :: s) = (false, 0)) as Hs.
      { destruct (isspace_cases c Hsp) as [E|[E|[E|[E|[E|E]]]]]; subst c; reflexivity. }
      rewrite Hs. simpl skipn. rewrite lex_unsigned_space by exact Hsp. discriminate.
    + simpl take_while. rewrite Hsp. simpl skipn.
      destruct (byte_eqb c "+"%char) eqn:Hp.
      * apply byte_eqb_true in Hp. subst c. simpl lex_sign. cbv iota beta.
        simpl skipn. rewrite lex_unsigned_plus. discriminate.
      * assert (lex_sign true (c :: s) = lex_sign false (c :: s)) as Hs.
        { unfold lex_sign. rewrite Hp. reflexivity. }
        rewrite Hs.
        destruct (lex_sign false (c :: s)) as [neg k] eqn:Ek.
        assert (k <= 1) as Hk.
        { unfold lex_sign in Ek. destruct (byte_eqb c "-"%char);
          injection Ek as _ <-; lia. }
        destruct (lex_unsigned false (skipn k (c :: s))) as [[w n]|] eqn:Eu;
          [|discriminate].
        destruct (dbl_range_ok (fneg neg w)) eqn:Er; [|discriminate].
        intro H. injection H as Hv Hn.
        assert (n = List.length (skipn k (c :: s))) as Hn'.
        { rewrite length_skipn. change (List.length (c :: s)) with (S (List.length s)).
          lia. }
        rewrite Hn' in Eu. apply lex_unsigned_whole in Eu. rewrite Eu, Er, Hv.
        reflexivity.
Qed.

Lemma parse_c_value_stod_fails (line t : bytes) :
  c_token line = Some t ->
  (forall v, stod t <> StodOk v) ->
  parse_c_value line = one.
Proof.
  unfold c_token, parse_c_value. intros Ht Hs.
  destruct (rfind (s2l "c=") line) as [pos|]; [|discriminate].
  injection Ht as Ht. rewrite Ht.
  assert (match stod t with StodOk v => v | _ => one end = one) as Hf.
  { destruct (stod t) as [v| |]; [exfalso; apply (Hs v); reflexivity | reflexivity | reflexivity]. }
  destruct (from_chars t) as [v n| |] eqn:Ef; try exact Hf.
  destruct (n =? List.length t) eqn:En; [|exact Hf].
  apply Nat.eqb_eq in En. subst n.
  apply from_chars_whole_stod in Ef. exfalso. exact (Hs v Ef).
Qed.

Lemma parse_c_value_stod (line t : bytes) (v : fvalue) :
  c_token line = Some t -> stod t = StodOk v -> parse_c_value line = v.
Proof.
  unfold c_token, parse_c_value. intros Ht Hs.
  destruct (rfind (s2l "c=") line) as [pos|]; [|discriminate].
  injection Ht as Ht. rewrite Ht, Hs.
  destruct (from_chars t) as [w n| |] eqn:Ef; try reflexivity.
  destruct (n =? List.length t) eqn:En; [|reflexivity].
  apply Nat.eqb_eq in En. subst n.
  apply from_chars_whole_stod in Ef. rewrite Ef in Hs. injection Hs as ->. reflexivity.
Qed.

(** C1. Keep/drop: a non-empty line whose token after the last "c=" is
    converted to [v] (by [std::from_chars] when it reads the whole token,
    otherwise by the [std::stod] fallback, which agrees with it there) is
    written verbatim, followed by '\n', iff [v > 0]; otherwise nothing is
    written, the count grows by one and the line's label is appended to the
    deleted words. *)
Theorem compact_step_keep_iff_positive (st : rw_state) (line t : bytes) (v : fvalue) :
  line <> [] -> c_token line = Some t -> stod t = StodOk v ->
  compact_step st line =
    if gt0 v then
      mk_rw (out_buf st ++ line ++ [newline]) (delete_item_count st) (deleted_words st)
    else
      mk_rw (out_buf st) (S (delete_item_count st))
            (deleted_words st ++ [extract_word_text line]).
Proof.
  intros Hne Ht Hs.
  pose proof (parse_c_value_stod line t v Ht Hs) as Hv.
  destruct line as [|c rest]; [contradiction|].
  unfold compact_step. rewrite Hv. reflexivity.
Qed.

Lemma compact_step_keep_iff_positive_witness :
  scenario_b_line <> [] /\
  c_token scenario_b_line = Some (s2l "-1") /\
  stod (s2l "-1") = StodOk (FFin (-1 # 1)) /\
  compact_step (mk_rw [] 0 []) scenario_b_line = mk_rw [] 1 [s2l "wx"].
Proof.
  refine (conj _ (conj _ (conj _ _))).
  - discriminate.
  - vm_compute. reflexivity.
  - vm_compute. reflexivity.
  - rewrite (compact_step_keep_iff_positive (mk_rw [] 0 []) scenario_b_line (s2l "-1")
               (FFin (-1 # 1))).
    + vm_compute. reflexivity.
    + discriminate.
    + vm_compute. reflexivity.
    + vm_compute. reflexivity.
Defined.

(** C2 (as amended). Fail-open: a non-empty line with no "c=", or whose
    token after the last "c=" has no prefix that [std::stod] converts to an
    in-range value (so [std::from_chars] does not convert it whole either),
    gets the value 1.0 and is written to the rewritten file unchanged.  A
    token whose longest prefix [std::stod] converts (a whole literal, or a
    literal followed by other characters such as "-1x") is no parse
    failure: the line gets that prefix's value and is kept iff it is
    positive, otherwise dropped and counted. *)
Theorem parse_fail_open_keeps (st : rw_state) (line : bytes) :
  line <> [] ->
  ((c_token line = None \/
    exists t, c_token line = Some t /\ forall v, stod t <> StodOk v) ->
   parse_c_value line = one /\
   compact_step st line =
     mk_rw (out_buf st ++ line ++ [newline]) (delete_item_count st) (deleted_words st)) /\
  (forall t v, c_token line = Some t -> stod t = StodOk v ->
   parse_c_value line = v /\
   compact_step st line =
     if gt0 v then
       mk_rw (out_buf st ++ line ++ [newline]) (delete_item_count st) (deleted_words st)
     else
       mk_rw (out_buf st) (S (delete_item_count st))
             (deleted_words st ++ [extract_word_text line])).
Proof.
  intros Hne. destruct line as [|c rest]; [contradiction|]. split.
  - intros Hc.
    assert (parse_c_value (c :: rest) = one) as Hp.
    { destruct Hc as [Hn | [t [Ht Hs]]].
      - apply parse_c_value_no_token. exact Hn.
      - apply (parse_c_value_stod_fails (c :: rest) t Ht Hs). }
    split; [exact Hp|].
    unfold compact_step. rewrite Hp. reflexivity.
  - intros t v Ht Hs.
    pose proof (parse_c_value_stod (c :: rest) t v Ht Hs) as Hv.
    split; [exact Hv|].
    unfold compact_step. rewrite Hv. reflexivity.
Qed.

Lemma parse_fail_open_keeps_witness :
  (c_token (s2l "ni hao c=abc") = None \/
   exists t, c_token (s2l "ni hao c=abc") = Some t /\ forall v, stod t <> StodOk v) /\
  s2l "ni hao c=abc" <> [] /\
  compact_step (mk_rw [] 0 []) (s2l "ni hao c=abc") =
    mk_rw (s2l "ni hao c=abc" ++ [newline]) 0 [] /\
  c_token (s2l "wu c=-1x") = Some (s2l "-1x") /\
  stod (s2l "-1x") = StodOk (FFin (-1 # 1)) /\
  compact_step (mk_rw [] 0 []) (s2l "wu c=-1x") = mk_rw [] 1 [s2l "wu c=-1x"].
Proof.
  set (line := s2l "ni hao c=abc").
  assert (c_token line = None \/
          exists t, c_token line = Some t /\ forall v, stod t <> StodOk v) as Hc.
  { right. exists (s2l "abc"). split; [vm_compute; reflexivity|].
    intros v. vm_compute. discriminate. }
  assert (c_token (s2l "wu c=-1x") = Some (s2l "-1x")) as Ht by (vm_compute; reflexivity).
  assert (stod (s2l "-1x") = StodOk (FFin (-1 # 1))) as Hs by (vm_compute; reflexivity).
  refine (conj Hc (conj _ (conj _ (conj Ht (conj Hs _))))); [discriminate| |].
  - exact (proj2 (proj1 (parse_fail_open_keeps (mk_rw [] 0 []) line ltac:(discriminate)) Hc)).
  - rewrite (proj2 (proj2 (parse_fail_open_keeps (mk_rw [] 0 []) (s2l "wu c=-1x")
                             ltac:(discriminate)) _ _ Ht Hs)).
    vm_compute. reflexivity.
Defined.

(** C2 as stated fails: the token "-1x" is not a floating-point literal
    ([std::from_chars] stops after "-1"), yet the line is dropped, because
    the [std::stod] fallback converts its prefix "-1". *)
Lemma c_token_prefix_dropped :
  c_token (s2l "wu c=-1x") = Some (s2l "-1x") /\
  from_chars (s2l "-1x") = FcOk (FFin (-1 # 1)) 2 /\
  stod (s2l "-1x") = StodOk (FFin (-1 # 1)) /\
  compact_step (mk_rw [] 0 []) (s2l "wu c=-1x") = mk_rw [] 1 [s2l "wu c=-1x"].
Proof. vm_compute. repeat split. Qed.

(** ** The rewrite loop *)

Lemma compact_lines_spec (lines : list bytes) (st : rw_state) :
  compact_lines lines st =
    mk_rw (out_buf st ++ write_lines (filter keepb lines))
          (delete_item_count st + List.length (filter dropb lines))
          (deleted_words st ++ map extract_word_text (filter dropb lines)).
Proof.
  unfold compact_lines, write_lines.
  revert st; induction lines as [|l lines IH]; intros [o n w]; simpl.
  - rewrite !app_nil_r, Nat.add_0_r. reflexivity.
  - rewrite IH. unfold compact_step, keepb, dropb.
    destruct l as [|c l']; simpl; [reflexivity|].
    destruct (gt0 (parse_c_value (c :: l'))); simpl.
    + f_equal. rewrite <- !app_assoc. simpl. rewrite <- !app_assoc. reflexivity.
    + rewrite <- !app_assoc. simpl. f_equal. lia.
Qed.

Lemma getlines_aux_line (l rest cur : bytes) :
  ~ In newline l ->
  getlines_aux (l ++ newline :: rest) cur = (rev cur ++ l) :: getlines_aux rest [].
Proof.
  revert cur; induction l as [|x l IH]; intros cur Hn; simpl.
  - rewrite app_nil_r. reflexivity.
  - rewrite byte_eqb_false by (intro; subst; apply Hn; left; reflexivity).
    rewrite IH by (intro; apply Hn; right; assumption).
    simpl. rewrite <- app_assoc. reflexivity.
Qed.

Lemma getlines_write_lines (lines : list bytes) :
  Forall (fun l => ~ In newline l) lines -> getlines (write_lines lines) = lines.
Proof.
  unfold getlines, write_lines.
  induction lines as [|l lines IH]; intros H; simpl; [reflexivity|].
  inversion H as [|? ? Hl Hrest]; subst.
  rewrite <- app_assoc. simpl. rewrite getlines_aux_line by exact Hl.
  rewrite IH by exact Hrest. reflexivity.
Qed.

Lemma getlines_aux_no_newline (s cur : bytes) :
  ~ In newline cur -> Forall (fun l => ~ In newline l) (getlines_aux s cur).
Proof.
  revert cur; induction s as [|c s IH]; intros cur Hc; simpl.
  - destruct cur; constructor; [|constructor].
    rewrite <- in_rev. exact Hc.
  - destruct (byte_eqb c newline) eqn:E.
    + constructor; [rewrite <- in_rev; exact Hc|]. apply IH. simpl. tauto.
    + apply IH. simpl. intros [H|H]; [|contradiction].
      subst. rewrite byte_eqb_refl in E. discriminate.
Qed.

Lemma getlines_no_newline (s : bytes) : Forall (fun l => ~ In newline l) (getlines s).
Proof. apply getlines_aux_no_newline. simpl. tauto. Qed.

Lemma filter_keepb_idem (lines : list bytes) :
  filter keepb (filter keepb lines) = filter keepb lines.
Proof.
  induction lines as [|l lines IH]; simpl; [reflexivity|].
  destruct (keepb l) eqn:E; simpl; [rewrite E, IH|]; auto.
Qed.

Lemma filter_dropb_kept (lines : list bytes) : filter dropb (filter keepb lines) = [].
Proof.
  induction lines as [|l lines IH]; simpl; [reflexivity|].
  destruct (keepb l) eqn:E; simpl; [|exact IH].
  unfold keepb, dropb in *. destruct l; [discriminate|]. rewrite E. exact IH.
Qed.

(** One compaction of a text: what the ".cache" file receives. *)
Lemma compact_output_fixpoint (data : bytes) (n : nat) (w : list bytes) :
  let o := out_buf (compact_lines (getlines data) (mk_rw [] n w)) in
  compact_lines (getlines o) (mk_rw [] 0 []) = mk_rw o 0 [].
Proof.
  simpl. rewrite (compact_lines_spec (getlines data)). simpl.
  assert (Forall (fun l => ~ In newline l) (filter keepb (getlines data))) as Hf.
  { apply Forall_forall. intros l Hl. apply filter_In in Hl as [Hl _].
    apply (proj1 (Forall_forall _ _) (getlines_no_newline data) l Hl). }
  rewrite getlines_write_lines by exact Hf.
  rewrite compact_lines_spec. simpl.
  rewrite filter_keepb_idem, filter_dropb_kept. reflexivity.
Qed.

Lemma cache_path_neq (p : bytes) : cache_path p <> p.
Proof.
  unfold cache_path. intro H. apply (f_equal (@List.length ascii)) in H.
  rewrite length_app in H. simpl in H. lia.
Qed.

Lemma clean_one_file_rewrites (opens : open_oracle) (fs : fstore) (n : nat)
    (w : list bytes) (p data : bytes) :
  fs p = Some data -> opens p = (true, true) ->
  let st := compact_lines (getlines data) (mk_rw [] n w) in
  fst (clean_one_file opens fs (n, w) p) p = Some (out_buf st) /\
  snd (clean_one_file opens fs (n, w) p) = (delete_item_count st, deleted_words st).
Proof.
  intros Hp Ho. unfold clean_one_file. rewrite Hp, Ho. simpl.
  split; [|reflexivity].
  unfold fs_update.
  rewrite (bytes_eqb_false p (cache_path p)) by (intro H; symmetry in H; exact (cache_path_neq p H)).
  rewrite bytes_eqb_refl.
  rewrite (bytes_eqb_false (cache_path p) p) by exact (cache_path_neq p).
  rewrite bytes_eqb_refl. reflexivity.
Qed.

(** C4. Idempotence: compacting the file again right after a compaction
    drops nothing and leaves the same bytes in the file. *)
Theorem compaction_idempotent (opens : open_oracle) (fs : fstore) (p data : bytes)
    (n : nat) (w : list bytes) :
  fs p = Some data -> opens p = (true, true) ->
  snd (clean_one_file opens (fst (clean_one_file opens fs (n, w) p)) (0, []) p) = (0, []) /\
  fst (clean_one_file opens (fst (clean_one_file opens fs (n, w) p)) (0, []) p) p =
    fst (clean_one_file opens fs (n, w) p) p.
Proof.
  intros Hp Ho.
  destruct (clean_one_file_rewrites opens fs n w p data Hp Ho) as [H1 _].
  set (fs1 := fst (clean_one_file opens fs (n, w) p)) in *.
  set (o := out_buf (compact_lines (getlines data) (mk_rw [] n w))) in *.
  destruct (clean_one_file_rewrites opens fs1 0 [] p o H1 Ho) as [H2 H3].
  pose proof (compact_output_fixpoint data n w) as Hfix. simpl in Hfix. fold o in Hfix.
  rewrite Hfix in H2, H3. simpl in H2, H3.
  split; [exact H3|]. rewrite H2, H1. reflexivity.
Qed.

(** C7. A file one of whose streams does not open is skipped: the count and
    the deleted words are unchanged, and so is every file but the
    temporary "<file>.cache" (which an opened output stream creates). *)
Theorem skip_on_open_failure (opens : open_oracle) (fs : fstore)
    (acc : nat * list bytes) (p : bytes) :
  fst (opens p) && snd (opens p) = false ->
  snd (clean_one_file opens fs acc p) = acc /\
  fst (clean_one_file opens fs acc p) p = fs p /\
  (forall q, q <> cache_path p -> fst (clean_one_file opens fs acc p) q = fs q).
Proof.
  intros H. unfold clean_one_file.
  destruct (fs p) as [data|] eqn:Hp; [|simpl; auto].
  destruct (opens p) as [i o]. simpl in H. rewrite H. simpl.
  assert (forall q, q <> cache_path p ->
            (if o then fs_update fs (cache_path p) (Some []) else fs) q = fs q) as Hq.
  { intros q Hq. destruct o; [|reflexivity].
    unfold fs_update. rewrite bytes_eqb_false by exact Hq. reflexivity. }
  split; [reflexivity|]. split.
  - rewrite Hq by (intro E; symmetry in E; exact (cache_path_neq p E)). exact Hp.
  - exact Hq.
Qed.

Lemma compaction_idempotent_witness :
  demo_fs demo_file = Some demo_data /\
  (fun _ : bytes => (true, true)) demo_file = (true, true) /\
  snd (clean_one_file (fun _ => (true, true))
         (fst (clean_one_file (fun _ => (true, true)) demo_fs (0, []) demo_file))
         (0, []) demo_file) = (0, []) /\
  fst (clean_one_file (fun _ => (true, true))
         (fst (clean_one_file (fun _ => (true, true)) demo_fs (0, []) demo_file))
         (0, []) demo_file) demo_file =
    fst (clean_one_file (fun _ => (true, true)) demo_fs (0, []) demo_file) demo_file.
Proof.
  refine (conj eq_refl (conj eq_refl _)).
  exact (compaction_idempotent (fun _ => (true, true)) demo_fs demo_file demo_data 0 []
           eq_refl eq_refl).
Defined.

Lemma skip_on_open_failure_witness :
  fst ((fun _ : bytes => (true, false)) demo_file) &&
  snd ((fun _ : bytes => (true, false)) demo_file) = false /\
  snd (clean_one_file (fun _ => (true, false)) demo_fs (0, []) demo_file) = (0, []) /\
  fst (clean_one_file (fun _ => (true, false)) demo_fs (0, []) demo_file) demo_file =
    Some demo_data.
Proof.
  split; [reflexivity|].
  destruct (skip_on_open_failure (fun _ => (true, false)) demo_fs (0, []) demo_file
              eq_refl) as [H1 [H2 _]].
  split; [exact H1|]. rewrite H2. reflexivity.
Defined.

(** ** DirectoryScanner *)

Lemma skipn_length_app (a b : bytes) (k : nat) :
  skipn (List.length a + k) (a ++ b) = skipn k b.
Proof. induction a as [|x a IH]; simpl; auto. Qed.

Lemma ends_with_app (suffix db : bytes) :
  db <> [] -> ends_with suffix (db ++ suffix) = true.
Proof.
  intro Hdb. unfold ends_with. rewrite length_app.
  apply andb_true_iff. split.
  - apply Nat.ltb_lt. destruct db; [contradiction|]. simpl. lia.
  - replace (List.length db + List.length suffix - List.length suffix)
      with (List.length db + 0) by lia.
    rewrite skipn_length_app. apply bytes_eqb_refl.
Qed.

Lemma strip_suffix_app (suffix db : bytes) : strip_suffix suffix (db ++ suffix) = db.
Proof.
  unfold strip_suffix. rewrite length_app.
  replace (List.length db + List.length suffix - List.length suffix)
    with (List.length db) by lia.
  apply firstn_length_app.
Qed.

Lemma extract_userdb_name_folder (db : bytes) :
  db <> [] -> extract_userdb_name true (db ++ sfx_userdb) = db.
Proof.
  intro H. unfold extract_userdb_name. rewrite ends_with_app by exact H.
  apply strip_suffix_app.
Qed.

Lemma extract_userdb_name_file (is_dir : bool) (db : bytes) :
  db <> [] -> extract_userdb_name is_dir (db ++ sfx_userdb_txt) = db.
Proof.
  intro H. unfold extract_userdb_name.
  assert (ends_with sfx_userdb (db ++ sfx_userdb_txt) = false) as Hn.
  { unfold ends_with. rewrite length_app.
    replace (List.length db + List.length sfx_userdb_txt - List.length sfx_userdb)
      with (List.length db + 4) by (vm_compute List.length; lia).
    rewrite skipn_length_app. rewrite andb_false_r. reflexivity. }
  rewrite Hn, andb_false_r, ends_with_app by exact H. apply strip_suffix_app.
Qed.

Lemma should_clean_userdb_iff (db : bytes) (cleanup_list : list bytes) :
  should_clean_userdb db cleanup_list = true <-> cleanup_list = [] \/ In db cleanup_list.
Proof.
  unfold should_clean_userdb. destruct cleanup_list as [|a l].
  - split; auto.
  - rewrite existsb_exists. split.
    + intros [x [Hx Heq]]. apply bytes_eqb_true in Heq. subst. right. exact Hx.
    + intros [H|H]; [discriminate|]. exists db. split; [exact H | apply bytes_eqb_refl].
Qed.

Lemma scan_entries_in (kind : dir_entry -> bool) (suffix : bytes) (cleanup_list : list bytes)
    (es : list dir_entry) (cleaned : list bytes) (p : bytes) :
  In p (fst (scan_entries kind suffix cleanup_list es cleaned)) <->
  exists e, In e es /\ entry_path e = p /\
            kind e && ends_with suffix (entry_name e) = true /\
            should_clean_userdb (extract_userdb_name (entry_is_dir e) (entry_name e))
                                cleanup_list = true.
Proof.
  revert cleaned; induction es as [|e es IH]; intros cleaned; simpl.
  - split; [contradiction|]. intros [e [[] _]].
  - destruct (kind e && ends_with suffix (entry_name e)) eqn:Ek.
    + destruct (should_clean_userdb (extract_userdb_name (entry_is_dir e) (entry_name e))
                  cleanup_list) eqn:Es.
      * destruct (scan_entries kind suffix cleanup_list es
                    (add_unique (extract_userdb_name (entry_is_dir e) (entry_name e) ++ suffix)
                       cleaned)) as [r c] eqn:Er.
        simpl. specialize (IH (add_unique (extract_userdb_name (entry_is_dir e)
                                  (entry_name e) ++ suffix) cleaned)).
        rewrite Er in IH. simpl in IH. split.
        -- intros [H|H]; [exists e; auto|].
           apply IH in H as [e' [H1 H2]]. exists e'. auto.
        -- intros [e' [[H|H] [H1 [H2 H3]]]]; [subst; left; reflexivity|].
           right. apply IH. exists e'. auto.
      * rewrite IH. split.
        -- intros [e' [H1 H2]]. exists e'. auto.
        -- intros [e' [[H|H] [H1 [H2 H3]]]].
           ++ subst e'. rewrite Es in H3. discriminate.
           ++ exists e'. auto.
    + rewrite IH. split.
      * intros [e' [H1 H2]]. exists e'. auto.
      * intros [e' [[H|H] [H1 [H2 H3]]]].
        -- subst e'. rewrite Ek in H2. discriminate.
        -- exists e'. auto.
Qed.

Lemma NoDup_map_inj {A B : Type} (f : A -> B) (l : list A) (x y : A) :
  NoDup (map f l) -> In x l -> In y l -> f x = f y -> x = y.
Proof.
  induction l as [|a l IH]; simpl; [contradiction|].
  intros Hnd Hx Hy Hf. inversion Hnd as [|? ? Hnotin Hnd']; subst.
  destruct Hx as [<-|Hx], Hy as [<-|Hy]; auto.
  - exfalso. apply Hnotin. rewrite Hf. apply in_map. exact Hy.
  - exfalso. apply Hnotin. rewrite <- Hf. apply in_map. exact Hx.
Qed.

(** C5. Allow-list restriction: an entry of a listing (paths unique) that
    is a "<db>.userdb" directory, resp. a "<db>.userdb.txt" regular file,
    is selected by the folder, resp. file, scan iff the cleanup list is
    empty or contains [db] (byte-wise equality). *)
Theorem allow_list_selection (cleanup_list : list bytes) (es : list dir_entry)
    (cleaned : list bytes) (e : dir_entry) (db : bytes) :
  NoDup (map entry_path es) -> In e es -> db <> [] ->
  (entry_is_dir e = true -> entry_name e = db ++ sfx_userdb ->
   (In (entry_path e) (fst (scan_entries entry_is_dir sfx_userdb cleanup_list es cleaned))
    <-> cleanup_list = [] \/ In db cleanup_list)) /\
  (entry_is_reg e = true -> entry_name e = db ++ sfx_userdb_txt ->
   (In (entry_path e) (fst (scan_entries entry_is_reg sfx_userdb_txt cleanup_list es cleaned))
    <-> cleanup_list = [] \/ In db cleanup_list)).
Proof.
  intros Hnd He Hdb. split.
  - intros Hd Hn. rewrite scan_entries_in, <- should_clean_userdb_iff. split.
    + intros [e' [He' [Hp [_ Hs]]]].
      assert (e' = e) as -> by exact (NoDup_map_inj entry_path es e' e Hnd He' He Hp).
      rewrite Hd, Hn, extract_userdb_name_folder in Hs by exact Hdb. exact Hs.
    + intros Hs. exists e. rewrite Hd, Hn, extract_userdb_name_folder by exact Hdb.
      rewrite ends_with_app by exact Hdb. auto.
  - intros Hr Hn. rewrite scan_entries_in, <- should_clean_userdb_iff. split.
    + intros [e' [He' [Hp [_ Hs]]]].
      assert (e' = e) as -> by exact (NoDup_map_inj entry_path es e' e Hnd He' He Hp).
      rewrite Hn, extract_userdb_name_file in Hs by exact Hdb. exact Hs.
    + intros Hs. exists e. rewrite Hr, Hn, extract_userdb_name_file by exact Hdb.
      rewrite ends_with_app by exact Hdb. auto.
Qed.

Lemma allow_list_selection_witness :
  NoDup (map entry_path demo_entries) /\
  In (mk_entry (s2l "/u/foo.userdb") (s2l "foo.userdb") true false) demo_entries /\
  s2l "foo" <> [] /\
  ~ In (s2l "/u/foo.userdb")
       (fst (scan_entries entry_is_dir sfx_userdb [s2l "bar"] demo_entries [])).
Proof.
  assert (NoDup (map entry_path demo_entries)) as Hnd.
  { vm_compute. constructor; [intros [H|[]]; discriminate H|].
    constructor; [intros []|constructor]. }
  assert (In (mk_entry (s2l "/u/foo.userdb") (s2l "foo.userdb") true false) demo_entries)
    as Hin by (left; reflexivity).
  assert (s2l "foo" <> []) as Hne by discriminate.
  refine (conj Hnd (conj Hin (conj Hne _))).
  intro H.
  apply (proj1 (allow_list_selection [s2l "bar"] demo_entries []
                  (mk_entry (s2l "/u/foo.userdb") (s2l "foo.userdb") true false)
                  (s2l "foo") Hnd Hin Hne) eq_refl eq_refl) in H.
  destruct H as [H|[H|[]]]; discriminate H.
Defined.

(** ** PathResolver *)

Ltac stat_cases Herr :=
  match goal with
  | |- context [h_stat ?h ?p] =>
      let E := fresh "E" in
      destruct (h_stat h p) eqn:E; [ | | | exfalso; exact (Herr _ E)]
  end.

(** C6 (as amended).  When no status query fails, resolution returns the
    API directory if it is a directory, else the [sync_dir] of an existing
    installation.yaml (backslash pairs collapsed on Windows builds, as is
    elsewhere) if that is a directory, else <user_data_dir>/sync whether or
    not it exists; a result that is not a directory makes the file scan
    return no file.  A failing status query raises at each step of the
    chain the resolution reaches: on the API path; on installation.yaml;
    on the [sync_dir] path; on <user_data_dir>/sync. *)
Theorem sync_directory_resolution (h : host) :
  ((forall p, h_stat h p <> StErr) ->
   get_sync_directory h =
     Ok (let plat := h_plat h in
         let user := h_user_data_dir h in
         let default := path_join plat user (s2l "sync") in
         match h_stat h (h_api_sync_dir h) with
         | StDir => h_api_sync_dir h
         | _ =>
             match match h_stat h (path_join plat user (s2l "installation.yaml")) with
                   | StNotFound => None
                   | _ => h_yaml_sync_dir h
                   end with
             | Some custom =>
                 let sp := match plat with
                           | Windows => collapse_backslashes custom
                           | OtherOS => custom
                           end in
                 match h_stat h sp with StDir => sp | _ => default end
             | None => default
             end
         end)) /\
  (forall en cleanup_list cleaned r,
     e_host en = h -> (forall p, h_stat h p <> StErr) ->
     get_sync_directory h = Ok r -> h_stat h r <> StDir ->
     get_userdb_files en cleanup_list cleaned = Ok ([], cleaned)) /\
  (h_stat h (h_api_sync_dir h) = StErr -> get_sync_directory h = Raise) /\
  (let plat := h_plat h in
   let user := h_user_data_dir h in
   let inst := path_join plat user (s2l "installation.yaml") in
   let sp custom := match plat with
                    | Windows => collapse_backslashes custom
                    | OtherOS => custom
                    end in
   h_stat h (h_api_sync_dir h) <> StDir ->
   (h_stat h inst = StErr -> get_sync_directory h = Raise) /\
   (forall custom, h_stat h inst <> StNotFound -> h_yaml_sync_dir h = Some custom ->
      h_stat h (sp custom) = StErr -> get_sync_directory h = Raise) /\
   ((h_stat h inst = StNotFound \/ h_yaml_sync_dir h = None \/
     exists custom, h_yaml_sync_dir h = Some custom /\ h_stat h (sp custom) <> StDir) ->
    h_stat h (path_join plat user (s2l "sync")) = StErr -> get_sync_directory h = Raise)).
Proof.
  split; [|split; [|split]].
  - intros Herr. unfold get_sync_directory, exists_dir, fs_exists, fs_is_directory.
    repeat (stat_cases Herr; simpl); try reflexivity;
    destruct (h_yaml_sync_dir h) as [custom|]; simpl; try reflexivity;
    repeat (stat_cases Herr; simpl); reflexivity.
  - intros en cl c r Hh Herr Hr Hnd. unfold get_userdb_files. rewrite Hh, Hr. simpl.
    unfold exists_dir, fs_exists, fs_is_directory.
    destruct (h_stat h r) eqn:E; simpl; try reflexivity.
    + contradiction.
    + exfalso. exact (Herr r E).
  - intros H. unfold get_sync_directory, exists_dir, fs_exists. rewrite H. reflexivity.
  - cbv zeta. intros Hapi.
    set (inst := path_join (h_plat h) (h_user_data_dir h) (s2l "installation.yaml")).
    set (dflt := path_join (h_plat h) (h_user_data_dir h) (s2l "sync")).
    assert (get_sync_directory h =
            match h_stat h (h_api_sync_dir h) with
            | StErr => Raise
            | StDir => Ok (h_api_sync_dir h)
            | _ =>
                let* found :=
                  match h_stat h inst with
                  | StErr => Raise
                  | StNotFound => Ok None
                  | _ =>
                      match h_yaml_sync_dir h with
                      | Some custom =>
                          let sp := match h_plat h with
                                    | Windows => collapse_backslashes custom
                                    | OtherOS => custom
                                    end in
                          let* ok2 := exists_dir (h_stat h) sp in
                          Ok (if ok2 then Some sp else None)
                      | None => Ok None
                      end
                  end in
                match found with
                | Some sp => Ok sp
                | None => let* ok3 := exists_dir (h_stat h) dflt in Ok dflt
                end
            end) as Eg.
    { unfold get_sync_directory. fold inst dflt.
      unfold exists_dir at 1, fs_exists at 1, fs_is_directory at 1.
      destruct (h_stat h (h_api_sync_dir h)); cbn [res_bind]; try reflexivity;
        unfold fs_exists at 1; destruct (h_stat h inst); cbn [res_bind]; try reflexivity;
        destruct (h_yaml_sync_dir h); cbn [res_bind]; try reflexivity;
        try (destruct (exists_dir (h_stat h) _) as [[|]|]; cbn [res_bind]; try reflexivity);
        destruct (exists_dir (h_stat h) dflt) as [[|]|]; reflexivity. }
    assert (exists_dir (h_stat h) dflt = Raise <-> h_stat h dflt = StErr) as Hd.
    { unfold exists_dir, fs_exists, fs_is_directory.
      destruct (h_stat h dflt); cbn [res_bind]; split; congruence. }
    rewrite Eg. split; [|split].
    + intros Hi. destruct (h_stat h (h_api_sync_dir h)); try reflexivity; try contradiction;
        rewrite Hi; reflexivity.
    + intros custom Hi Hy Hs. destruct (h_stat h (h_api_sync_dir h)); try reflexivity;
        try contradiction;
        (destruct (h_stat h inst); [contradiction| | |reflexivity]);
        rewrite Hy; unfold exists_dir at 1, fs_exists at 1; rewrite Hs; reflexivity.
    + intros Hc Hs. apply Hd in Hs.
      destruct (h_stat h (h_api_sync_dir h)); try reflexivity; try contradiction;
        (destruct (h_stat h inst) eqn:Ei; cbn [res_bind]; [rewrite Hs; reflexivity| | |reflexivity]);
        (destruct Hc as [Hc|[Hc|[custom [Hy Hsp]]]];
         [congruence | rewrite Hc; cbn [res_bind]; rewrite Hs; reflexivity |]);
        rewrite Hy; cbv zeta;
        set (sp := match h_plat h with
                   | Windows => collapse_backslashes custom
                   | OtherOS => custom
                   end) in *;
        unfold exists_dir at 1, fs_exists at 1, fs_is_directory at 1;
        destruct (h_stat h sp); cbn [res_bind]; try congruence; rewrite Hs; reflexivity.
Qed.

Lemma sync_directory_resolution_witness :
  (forall p, h_stat posix_host p <> StErr) /\
  get_sync_directory posix_host = Ok (s2l "/data/a\\b") /\
  h_stat inst_err_host (s2l "C:\Rime\sync") = StNotFound /\
  h_stat inst_err_host (s2l "C:\Rime\installation.yaml") = StErr /\
  get_sync_directory inst_err_host = Raise.
Proof.
  assert (h_stat inst_err_host (h_api_sync_dir inst_err_host) <> StDir) as Hapi
    by (vm_compute; discriminate).
  assert (h_stat inst_err_host
            (path_join (h_plat inst_err_host) (h_user_data_dir inst_err_host)
                       (s2l "installation.yaml")) = StErr) as Hinst
    by (vm_compute; reflexivity).
  assert (get_sync_directory inst_err_host = Raise) as Hraise
    by exact (proj1 (proj2 (proj2 (proj2 (sync_directory_resolution inst_err_host))) Hapi)
                Hinst).
  assert (forall p, h_stat posix_host p <> StErr) as Herr.
  { intros p. unfold posix_host. cbn [h_stat].
    destruct (bytes_eqb p (s2l "/data/a\\b")); [discriminate|].
    destruct (bytes_eqb p (s2l "/home/u/installation.yaml")); discriminate. }
  split; [exact Herr|]. split.
  - rewrite (proj1 (sync_directory_resolution posix_host) Herr).
    vm_compute. reflexivity.
  - split; [vm_compute; reflexivity|]. split; [vm_compute; reflexivity|]. exact Hraise.
Defined.

(** C6 as stated fails twice: a failing status query makes the resolution
    throw, and off Windows the [sync_dir] value keeps its backslash
    pairs. *)
Lemma sync_directory_raises_and_raw :
  get_sync_directory err_host = Raise /\
  get_sync_directory posix_host = Ok (s2l "/data/a\\b") /\
  collapse_backslashes (s2l "/data/a\\b") <> s2l "/data/a\\b".
Proof.
  split; [vm_compute; reflexivity|].
  split; [vm_compute; reflexivity|].
  vm_compute. discriminate.
Qed.

(** ** Folder purge and the report *)

Lemma purge_children_count (remove_ok : bytes -> bool) (cs : list dir_entry) :
  purge_children remove_ok cs = List.length (filter (fun c => remove_ok (entry_path c)) cs).
Proof.
  induction cs as [|c cs IH]; simpl; [reflexivity|].
  destruct (remove_ok (entry_path c)); simpl; rewrite IH; reflexivity.
Qed.

Lemma purge_folders_count (en : env) (folders : list bytes) :
  purge_folders en folders =
  List.length (filter (fun c => e_remove_ok en (entry_path c))
                      (flat_map (e_children en) folders)).
Proof.
  induction folders as [|f folders IH]; simpl; [reflexivity|].
  rewrite purge_children_count, IH, filter_app, length_app. reflexivity.
Qed.

(** C9. Separate counters: the count handed to [send_clean_msg] is the
    number of text records dropped by the rewrite of the scanned files; the
    folder purge count is computed apart, as the number of children of the
    selected folders whose removal did not fail (each child is tried). *)
Theorem notification_count_separate (en : env) (fs : fstore) (cleanup_list : list bytes)
    (full : bool) (rep : clean_report) (fcnt : nat) (fs' : fstore) :
  process_clean_task en fs cleanup_list full = Ok (rep, fcnt, fs') ->
  exists folders cleaned_folders files cleaned_files,
    get_userdb_folders en (h_user_data_dir (e_host en)) cleanup_list [] =
      Ok (folders, cleaned_folders) /\
    get_userdb_files en cleanup_list [] = Ok (files, cleaned_files) /\
    report_delete_item_count rep =
      fst (snd (clean_files_loop (e_opens en) fs (0, []) files)) /\
    fcnt = List.length (filter (fun c => e_remove_ok en (entry_path c))
                               (flat_map (e_children en) folders)).
Proof.
  unfold process_clean_task, clean_userdb_folders, clean_userdb_files.
  destruct (get_userdb_folders en (h_user_data_dir (e_host en)) cleanup_list [])
    as [[folders cf]|] eqn:Ef; simpl; [|discriminate].
  destruct (get_userdb_files en cleanup_list []) as [[files cfi]|] eqn:Eg; simpl;
    [|discriminate].
  destruct (clean_files_loop (e_opens en) fs (0, []) files) as [fs1 [cnt words]] eqn:El.
  simpl. intros H. injection H as Hrep Hf _. subst rep fcnt.
  exists folders, cf, files, cfi.
  refine (conj eq_refl (conj eq_refl (conj _ _))).
  - rewrite El. reflexivity.
  - apply purge_folders_count.
Qed.

Lemma notification_count_separate_witness :
  exists rep fcnt fs',
    process_clean_task demo_env demo_fs [] false = Ok (rep, fcnt, fs') /\
    report_delete_item_count rep = 1 /\ fcnt = 1.
Proof.
  destruct (process_clean_task demo_env demo_fs [] false) as [[[rep fcnt] fs']|] eqn:E.
  - exists rep, fcnt, fs'. split; [reflexivity|].
    destruct (notification_count_separate demo_env demo_fs [] false rep fcnt fs' E)
      as [folders [cf [files [cfi [H1 [H2 [H3 H4]]]]]]].
    vm_compute in H1. injection H1 as <- _.
    vm_compute in H2. injection H2 as <- _.
    rewrite H3, H4. split; vm_compute; reflexivity.
  - exfalso. vm_compute in E. discriminate E.
Defined.

(** ** SingleFlightRunner *)

Lemma single_flight_invariant (fs0 : fstore) (g : SingleFlight.gstate) :
  SingleFlight.reachable (SingleFlight.idle fs0) g ->
  (SingleFlight.busy g = false /\ SingleFlight.running g = []) \/
  (SingleFlight.busy g = true /\ exists t, SingleFlight.running g = [t]).
Proof.
  induction 1 as [|g g' _ IH Hstep].
  - left. split; reflexivity.
  - destruct Hstep as [t g b g'' Ht | t o g Hr].
    + unfold SingleFlight.try_start in Ht.
      destruct (SingleFlight.busy g) eqn:Eb; injection Ht as _ <-; [rewrite Eb; exact IH|].
      right. split; [reflexivity|]. exists t. reflexivity.
    + left. split; reflexivity.
Qed.

(** C3. Single flight (the runner modelled from the spec): a second
    [try_start] after a successful one, and any [try_start] while a task is
    in flight, returns false and leaves the state, files included,
    unchanged; an idle runner starts the task and becomes busy; completion,
    normal or by an exception, clears the busy flag; at most one task runs. *)
Theorem single_flight (fs0 : fstore) :
  (forall t1 t2 g g1,
     SingleFlight.try_start t1 g = (true, g1) ->
     SingleFlight.try_start t2 g1 = (false, g1)) /\
  (forall g t,
     SingleFlight.reachable (SingleFlight.idle fs0) g -> SingleFlight.running g <> [] ->
     SingleFlight.try_start t g = (false, g)) /\
  (forall g t,
     SingleFlight.busy g = false ->
     SingleFlight.try_start t g = (true, SingleFlight.mk_g true [t] (SingleFlight.files g))) /\
  (forall g o,
     SingleFlight.busy (SingleFlight.complete o g) = false /\
     SingleFlight.running (SingleFlight.complete o g) = []) /\
  (forall g,
     SingleFlight.reachable (SingleFlight.idle fs0) g ->
     List.length (SingleFlight.running g) <= 1).
Proof.
  split; [|split; [|split; [|split]]].
  - intros t1 t2 g g1 H. unfold SingleFlight.try_start in H.
    destruct (SingleFlight.busy g); [discriminate H|].
    injection H as <-. reflexivity.
  - intros g t Hr Hne. unfold SingleFlight.try_start.
    destruct (single_flight_invariant fs0 g Hr) as [[_ H]|[H _]]; [contradiction|].
    rewrite H. reflexivity.
  - intros g t H. unfold SingleFlight.try_start. rewrite H. reflexivity.
  - intros g o. split; reflexivity.
  - intros g Hr. destruct (single_flight_invariant fs0 g Hr) as [[_ H]|[_ [t H]]];
      rewrite H; simpl; lia.
Qed.

Lemma single_flight_witness :
  SingleFlight.try_start ([], false) (SingleFlight.idle demo_fs) =
    (true, SingleFlight.mk_g true [([], false)] demo_fs) /\
  SingleFlight.try_start ([s2l "luna_pinyin"], true)
    (SingleFlight.mk_g true [([], false)] demo_fs) =
    (false, SingleFlight.mk_g true [([], false)] demo_fs).
Proof.
  destruct (single_flight demo_fs) as [H1 [_ [H3 _]]].
  assert (SingleFlight.try_start ([], false) (SingleFlight.idle demo_fs) =
            (true, SingleFlight.mk_g true [([], false)] demo_fs)) as Hs
    by exact (H3 (SingleFlight.idle demo_fs) ([], false) eq_refl).
  split; [exact Hs|]. exact (H1 _ _ _ _ Hs).
Defined.

(** ** The trigger *)

(** C10 (as amended).  On Windows builds, an input equal to the trigger is
    cleared before the start is attempted; the result is [kAccepted] iff the
    runner was idle and the task started, and a refused start returns
    [kNoop] with the input already cleared.  On other builds the handler
    returns [kNoop] and leaves input and runner untouched. *)
Theorem process_key_event_trigger (plat : platform) (trigger : bytes)
    (cleanup_list : list bytes) (full : bool) (input : bytes) (g : SingleFlight.gstate) :
  (plat = Windows -> input = trigger ->
   snd (fst (process_key_event plat trigger cleanup_list full input g)) = [] /\
   (fst (fst (process_key_event plat trigger cleanup_list full input g)) = kAccepted <->
    SingleFlight.busy g = false) /\
   (SingleFlight.busy g = true ->
    process_key_event plat trigger cleanup_list full input g = (kNoop, [], g))) /\
  (plat = OtherOS ->
   process_key_event plat trigger cleanup_list full input g = (kNoop, input, g)).
Proof.
  split.
  - intros -> ->. unfold process_key_event, SingleFlight.try_start.
    rewrite bytes_eqb_refl.
    destruct (SingleFlight.busy g); simpl.
    + split; [reflexivity|]. split; [|reflexivity]. split; discriminate.
    + split; [reflexivity|]. split; [split; reflexivity|discriminate].
  - intros ->. reflexivity.
Qed.

Lemma process_key_event_trigger_witness :
  process_key_event Windows (s2l "/del") [] false (s2l "/del")
    (SingleFlight.idle demo_fs) =
    (kAccepted, [], SingleFlight.mk_g true [([], false)] demo_fs) /\
  process_key_event Windows (s2l "/del") [] false (s2l "/del")
    (SingleFlight.mk_g true [([], false)] demo_fs) =
    (kNoop, [], SingleFlight.mk_g true [([], false)] demo_fs).
Proof.
  split.
  - reflexivity.
  - exact (proj2 (proj2 (proj1 (process_key_event_trigger Windows (s2l "/del") [] false
             (s2l "/del") (SingleFlight.mk_g true [([], false)] demo_fs)) eq_refl eq_refl))
             eq_refl).
Defined.

(** C10 as stated fails off Windows: the input equals the trigger and is
    left as it is. *)
Lemma process_key_event_other_os_keeps_input :
  process_key_event OtherOS (s2l "/del") [] false (s2l "/del") (SingleFlight.idle demo_fs) =
    (kNoop, s2l "/del", SingleFlight.idle demo_fs) /\
  s2l "/del" <> [].
Proof. split; [reflexivity | discriminate]. Qed.

(** * Further properties of the code *)

(** ** Out-of-range weights *)

(** On "0x...", [from_chars] reads the value 0, which is in range. *)
Lemma lex_unsigned_false_hex (x : ascii) (r : bytes) (neg : bool) :
  lower x = "x"%char ->
  exists q, lex_unsigned false ("0"%char :: x :: r) = Some (FFin q, 1) /\
            dbl_range_ok (fneg neg (FFin q)) = true.
Proof.
  intro H. destruct (lower_is_x x H) as [-> | ->]; eexists; split;
    try reflexivity; destruct neg; vm_compute; reflexivity.
Qed.

Lemma lex_unsigned_range (u : bytes) (w : fvalue) (n : nat) (neg : bool) :
  lex_unsigned false u = Some (w, n) -> dbl_range_ok (fneg neg w) = false ->
  lex_unsigned true u = Some (w, n).
Proof.
  unfold lex_unsigned at 2. intros H Hr.
  destruct (lex_special u) as [p|] eqn:Es.
  - unfold lex_unsigned in H. rewrite Es in H. exact H.
  - destruct (lex_hex u) as [p|] eqn:Eh.
    + exfalso. destruct (lex_hex_shape u p Eh) as [x [r [-> Hx]]].
      destruct (lex_unsigned_false_hex x r neg Hx) as [q [Hq Hok]].
      rewrite Hq in H. injection H as <- _. rewrite Hok in Hr. discriminate.
    + unfold lex_unsigned in H. rewrite Es in H. exact H.
Qed.

Lemma from_chars_range_stod (t : bytes) (n : nat) :
  from_chars t = FcRange n -> stod t = StodRange.
Proof.
  unfold from_chars, stod. destruct t as [|c s].
  - simpl. discriminate.
  - destruct (isspace c) eqn:Hsp.
    + assert (lex_sign false (c :: s) = (false, 0)) as Hs.
      { destruct (isspace_cases c Hsp) as [E|[E|[E|[E|[E|E]]]]]; subst c; reflexivity. }
      rewrite Hs. simpl skipn. rewrite lex_unsigned_space by exact Hsp. discriminate.
    + simpl take_while. rewrite Hsp. simpl skipn.
      destruct (byte_eqb c "+"%char) eqn:Hp.
      * apply byte_eqb_true in Hp. subst c. simpl lex_sign. cbv iota beta.
        simpl skipn. rewrite lex_unsigned_plus. discriminate.
      * assert (lex_sign true (c :: s) = lex_sign false (c :: s)) as Hs.
        { unfold lex_sign. rewrite Hp. reflexivity. }
        rewrite Hs.
        destruct (lex_sign false (c :: s)) as [neg k].
        destruct (lex_unsigned false (skipn k (c :: s))) as [[w m]|] eqn:Eu;
          [|discriminate].
        destruct (dbl_range_ok (fneg neg w)) eqn:Er; [discriminate|].
        intros _. rewrite (lex_unsigned_range _ w m neg Eu Er), Er. reflexivity.
Qed.

Lemma c_token_nonempty (line t : bytes) : c_token line = Some t -> line <> [].
Proof. intros H E. subst line. discriminate H. Qed.

(** A weight that [std::from_chars] reports as out of range (overflowing
    or underflowing a double, whatever its sign) makes [std::stod] throw
    too: the value is taken as 1.0 and the line is kept, so "c=-1e999"
    keeps its line. *)
Theorem parse_out_of_range_kept (st : rw_state) (line t : bytes) (n : nat) :
  c_token line = Some t -> from_chars t = FcRange n ->
  parse_c_value line = one /\
  compact_step st line =
    mk_rw (out_buf st ++ line ++ [newline]) (delete_item_count st) (deleted_words st).
Proof.
  intros Ht Hr.
  assert (parse_c_value line = one) as Hp.
  { apply (parse_c_value_stod_fails line t Ht).
    rewrite (from_chars_range_stod t n Hr). discriminate. }
  split; [exact Hp|].
  destruct line as [|c rest]; [exfalso; exact (c_token_nonempty [] t Ht eq_refl)|].
  unfold compact_step. rewrite Hp. reflexivity.
Qed.

Lemma parse_out_of_range_kept_witness :
  c_token (s2l "fu c=-1e999 d=1") = Some (s2l "-1e999") /\
  from_chars (s2l "-1e999") = FcRange 6 /\
  compact_step (mk_rw [] 0 []) (s2l "fu c=-1e999 d=1") =
    mk_rw (s2l "fu c=-1e999 d=1" ++ [newline]) 0 [].
Proof.
  assert (c_token (s2l "fu c=-1e999 d=1") = Some (s2l "-1e999")) as H1
    by (vm_compute; reflexivity).
  assert (from_chars (s2l "-1e999") = FcRange 6) as H2 by (vm_compute; reflexivity).
  refine (conj H1 (conj H2 _)).
  exact (proj2 (parse_out_of_range_kept (mk_rw [] 0 []) _ _ 6 H1 H2)).
Defined.

(** ** The rewrite of one file *)

Lemma fs_update_eq (fs : fstore) (p : bytes) (v : option bytes) : fs_update fs p v p = v.
Proof. unfold fs_update. rewrite bytes_eqb_refl. reflexivity. Qed.

Lemma fs_update_neq (fs : fstore) (p q : bytes) (v : option bytes) :
  q <> p -> fs_update fs p v q = fs q.
Proof. intro H. unfold fs_update. rewrite bytes_eqb_false by exact H. reflexivity. Qed.

Lemma cache_path_neq' (p : bytes) : p <> cache_path p.
Proof. intro H. symmetry in H. exact (cache_path_neq p H). Qed.

(** A file both of whose streams open is replaced by its kept lines, each
    followed by '\n'; no "<file>.cache" remains; no other file changes;
    the count grows by the number of dropped lines and their labels are
    appended, in the order of the file. *)
Theorem clean_one_file_result (opens : open_oracle) (fs : fstore) (p data : bytes)
    (n : nat) (w : list bytes) :
  fs p = Some data -> opens p = (true, true) ->
  fst (clean_one_file opens fs (n, w) p) p = Some (write_lines (filter keepb (getlines data))) /\
  fst (clean_one_file opens fs (n, w) p) (cache_path p) = None /\
  (forall q, q <> p -> q <> cache_path p -> fst (clean_one_file opens fs (n, w) p) q = fs q) /\
  snd (clean_one_file opens fs (n, w) p) =
    (n + List.length (filter dropb (getlines data)),
     w ++ map extract_word_text (filter dropb (getlines data))).
Proof.
  intros Hp Ho. unfold clean_one_file. rewrite Hp, Ho. simpl.
  rewrite compact_lines_spec. simpl.
  split; [|split; [|split]].
  - rewrite fs_update_neq by exact (cache_path_neq' p).
    rewrite fs_update_eq, fs_update_neq by exact (cache_path_neq p).
    rewrite !fs_update_eq. reflexivity.
  - apply fs_update_eq.
  - intros q H1 H2. rewrite !fs_update_neq by assumption. reflexivity.
  - reflexivity.
Qed.

Lemma clean_one_file_result_witness :
  demo_fs demo_file = Some demo_data /\
  fst (clean_one_file (fun _ => (true, true)) demo_fs (0, []) demo_file) demo_file =
    Some (s2l "ni hao" ++ tab :: s2l "nh" ++ tab :: s2l "c=1 d=0.5 t=100" ++ [newline]) /\
  snd (clean_one_file (fun _ => (true, true)) demo_fs (0, []) demo_file) = (1, [s2l "wx"]).
Proof.
  destruct (clean_one_file_result (fun _ => (true, true)) demo_fs demo_file demo_data 0 []
              eq_refl eq_refl) as [H1 [_ [_ H4]]].
  split; [reflexivity|]. rewrite H1, H4. split; vm_compute; reflexivity.
Defined.

Lemma write_lines_ends (lines : list bytes) :
  write_lines lines = [] \/ exists b, write_lines lines = b ++ [newline].
Proof.
  unfold write_lines. induction lines as [|l lines IH] using rev_ind; [left; reflexivity|].
  right. rewrite map_app, concat_app. simpl. rewrite app_nil_r.
  exists (List.concat (map (fun l0 => l0 ++ [newline]) lines) ++ l).
  rewrite <- !app_assoc. reflexivity.
Qed.

(** The rewritten file reads back, line by line, as the kept lines of the
    original in their order: blank lines are gone, and the file ends with
    '\n' even when the original's last line did not. *)
Theorem rewritten_file_lines (opens : open_oracle) (fs : fstore) (p data : bytes)
    (n : nat) (w : list bytes) :
  fs p = Some data -> opens p = (true, true) ->
  exists out,
    fst (clean_one_file opens fs (n, w) p) p = Some out /\
    getlines out = filter keepb (getlines data) /\
    ~ In [] (getlines out) /\
    (out = [] \/ exists b, out = b ++ [newline]).
Proof.
  intros Hp Ho. unfold clean_one_file. rewrite Hp, Ho. simpl.
  rewrite compact_lines_spec. simpl.
  exists (write_lines (filter keepb (getlines data))).
  split.
  - rewrite fs_update_neq by exact (cache_path_neq' p).
    rewrite fs_update_eq, fs_update_neq by exact (cache_path_neq p).
    rewrite !fs_update_eq. reflexivity.
  - assert (Forall (fun l => ~ In newline l) (filter keepb (getlines data))) as Hf.
    { apply Forall_forall. intros l Hl. apply filter_In in Hl as [Hl _].
      apply (proj1 (Forall_forall _ _) (getlines_no_newline data) l Hl). }
    rewrite getlines_write_lines by exact Hf.
    split; [reflexivity|]. split; [|apply write_lines_ends].
    intro H. apply filter_In in H as [_ H]. discriminate H.
Qed.

Lemma rewritten_file_lines_witness :
  fs_update demo_fs demo_file (Some (s2l "a c=1" ++ [newline; newline] ++ s2l "b c=2"))
    demo_file = Some (s2l "a c=1" ++ [newline; newline] ++ s2l "b c=2") /\
  fst (clean_one_file (fun _ => (true, true))
         (fs_update demo_fs demo_file (Some (s2l "a c=1" ++ [newline; newline] ++ s2l "b c=2")))
         (0, []) demo_file) demo_file =
    Some (s2l "a c=1" ++ [newline] ++ s2l "b c=2" ++ [newline]).
Proof.
  assert (fs_update demo_fs demo_file (Some (s2l "a c=1" ++ [newline; newline] ++ s2l "b c=2"))
            demo_file = Some (s2l "a c=1" ++ [newline; newline] ++ s2l "b c=2")) as Hp
    by apply fs_update_eq.
  split; [exact Hp|].
  destruct (rewritten_file_lines (fun _ => (true, true)) _ demo_file _ 0 [] Hp eq_refl)
    as [out [H1 [H2 _]]].
  rewrite H1. f_equal. vm_compute in H2.
  vm_compute in H1. injection H1 as <-. reflexivity.
Defined.

(** When the output stream opens but the input stream does not, an empty
    "<file>.cache" is left behind next to the untouched original; when the
    output stream does not open, nothing at all changes. *)
Theorem open_failure_cache (opens : open_oracle) (fs : fstore) (acc : nat * list bytes)
    (p data : bytes) :
  fs p = Some data ->
  (opens p = (false, true) ->
   fst (clean_one_file opens fs acc p) (cache_path p) = Some [] /\
   fst (clean_one_file opens fs acc p) p = Some data /\
   snd (clean_one_file opens fs acc p) = acc) /\
  (snd (opens p) = false -> clean_one_file opens fs acc p = (fs, acc)).
Proof.
  intro Hp. split.
  - intro Ho. unfold clean_one_file. rewrite Hp, Ho. simpl.
    split; [apply fs_update_eq|]. split; [|reflexivity].
    rewrite fs_update_neq by exact (cache_path_neq' p). exact Hp.
  - intro Ho. unfold clean_one_file. rewrite Hp.
    destruct (opens p) as [i o]. simpl in Ho. subst o.
    rewrite andb_false_r. reflexivity.
Qed.

Lemma open_failure_cache_witness :
  demo_fs demo_file = Some demo_data /\
  fst (clean_one_file (fun _ => (false, true)) demo_fs (0, []) demo_file)
    (cache_path demo_file) = Some [].
Proof.
  split; [reflexivity|].
  exact (proj1 (proj1 (open_failure_cache (fun _ => (false, true)) demo_fs (0, []) demo_file
                         demo_data eq_refl) eq_refl)).
Defined.

(** ** The rewrite loop over the selected files *)

Lemma clean_one_file_frame (opens : open_oracle) (fs : fstore) (acc : nat * list bytes)
    (p q : bytes) :
  q <> p -> q <> cache_path p -> fst (clean_one_file opens fs acc p) q = fs q.
Proof.
  intros H1 H2. unfold clean_one_file.
  destruct (fs p) as [data|]; [|reflexivity].
  destruct (opens p) as [i o].
  assert ((if o then fs_update fs (cache_path p) (Some []) else fs) q = fs q) as H.
  { destruct o; [apply fs_update_neq; exact H2 | reflexivity]. }
  destruct (negb (i && o)); simpl; [exact H|].
  rewrite !fs_update_neq by assumption. exact H.
Qed.

Lemma clean_files_loop_frame (opens : open_oracle) (files : list bytes) :
  forall fs acc q, (forall f, In f files -> q <> f /\ q <> cache_path f) ->
  fst (clean_files_loop opens fs acc files) q = fs q.
Proof.
  induction files as [|f rest IH]; intros fs acc q H; simpl; [reflexivity|].
  destruct (clean_one_file opens fs acc f) as [fs1 acc1] eqn:E.
  rewrite IH by (intros f' Hf'; apply H; right; exact Hf').
  destruct (H f (or_introl eq_refl)) as [H1 H2].
  rewrite <- (clean_one_file_frame opens fs acc f q H1 H2), E. reflexivity.
Qed.

Lemma clean_one_file_acc (opens : open_oracle) (fs : fstore) (acc : nat * list bytes)
    (p : bytes) :
  exists added, snd (snd (clean_one_file opens fs acc p)) = snd acc ++ added /\
                fst (snd (clean_one_file opens fs acc p)) = fst acc + List.length added.
Proof.
  destruct acc as [n w]. unfold clean_one_file.
  destruct (fs p) as [data|]; [|exists []; rewrite app_nil_r; simpl; split; [reflexivity|lia]].
  destruct (opens p) as [i o].
  destruct (negb (i && o)); simpl; [exists []; rewrite app_nil_r; simpl; split; [reflexivity|lia]|].
  rewrite compact_lines_spec. simpl.
  exists (map extract_word_text (filter dropb (getlines data))).
  rewrite length_map. split; reflexivity.
Qed.

Lemma clean_files_loop_acc (opens : open_oracle) (files : list bytes) :
  forall fs acc,
  exists added, snd (snd (clean_files_loop opens fs acc files)) = snd acc ++ added /\
                fst (snd (clean_files_loop opens fs acc files)) = fst acc + List.length added.
Proof.
  induction files as [|f rest IH]; intros fs acc; simpl.
  - exists []. rewrite app_nil_r. simpl. split; [reflexivity|lia].
  - destruct (clean_one_file_acc opens fs acc f) as [a1 [H1 H2]].
    destruct (clean_one_file opens fs acc f) as [fs1 acc1]. simpl in H1, H2.
    destruct (IH fs1 acc1) as [a2 [H3 H4]].
    exists (a1 ++ a2). rewrite H3, H1, <- app_assoc, length_app. split; [reflexivity|lia].
Qed.

(** What a successful [process_clean_task] is made of. *)
Lemma process_clean_task_ok (en : env) (fs : fstore) (cleanup_list : list bytes)
    (full : bool) (rep : clean_report) (fcnt : nat) (fs' : fstore) :
  process_clean_task en fs cleanup_list full = Ok (rep, fcnt, fs') ->
  exists folders cf files cfi,
    get_userdb_folders en (h_user_data_dir (e_host en)) cleanup_list [] = Ok (folders, cf) /\
    get_userdb_files en cleanup_list [] = Ok (files, cfi) /\
    rep = mk_report (fst (snd (clean_files_loop (e_opens en) fs (0, []) files))) cf cfi
            (snd (snd (clean_files_loop (e_opens en) fs (0, []) files))) full /\
    fcnt = purge_folders en folders /\
    fs' = fst (clean_files_loop (e_opens en) fs (0, []) files).
Proof.
  unfold process_clean_task, clean_userdb_folders, clean_userdb_files.
  destruct (get_userdb_folders en (h_user_data_dir (e_host en)) cleanup_list [])
    as [[folders cf]|] eqn:Ef; simpl; [|discriminate].
  destruct (get_userdb_files en cleanup_list []) as [[files cfi]|] eqn:Eg; simpl;
    [|discriminate].
  destruct (clean_files_loop (e_opens en) fs (0, []) files) as [fs1 [cnt words]] eqn:El.
  simpl. intros H. injection H as <- <- <-.
  exists folders, cf, files, cfi. rewrite El. repeat split.
Qed.

(** The cleanup task changes no file but the selected ".userdb.txt" files
    and their "<file>.cache" siblings. *)
Theorem task_touches_only_selected (en : env) (fs : fstore) (cleanup_list : list bytes)
    (full : bool) (rep : clean_report) (fcnt : nat) (fs' : fstore) :
  process_clean_task en fs cleanup_list full = Ok (rep, fcnt, fs') ->
  exists files cleaned_files,
    get_userdb_files en cleanup_list [] = Ok (files, cleaned_files) /\
    forall q, (forall f, In f files -> q <> f /\ q <> cache_path f) -> fs' q = fs q.
Proof.
  intro H. destruct (process_clean_task_ok en fs cleanup_list full rep fcnt fs' H)
    as [folders [cf [files [cfi [_ [Hg [_ [_ ->]]]]]]]].
  exists files, cfi. split; [exact Hg|].
  intros q Hq. apply clean_files_loop_frame. exact Hq.
Qed.

Lemma task_touches_only_selected_witness :
  exists rep fcnt fs',
    process_clean_task demo_env demo_fs [] false = Ok (rep, fcnt, fs') /\
    fs' (s2l "C:\Rime\other.txt") = demo_fs (s2l "C:\Rime\other.txt").
Proof.
  destruct (process_clean_task demo_env demo_fs [] false) as [[[rep fcnt] fs']|] eqn:E.
  - exists rep, fcnt, fs'. split; [reflexivity|].
    destruct (task_touches_only_selected demo_env demo_fs [] false rep fcnt fs' E)
      as [files [cfi [Hg Hq]]].
    apply Hq. vm_compute in Hg. injection Hg as <- _.
    intros f [<-|[]]. split; discriminate.
  - exfalso. vm_compute in E. discriminate E.
Defined.

(** The count in the notification is exactly the number of deleted words
    it carries. *)
Theorem report_count_is_word_count (en : env) (fs : fstore) (cleanup_list : list bytes)
    (full : bool) (rep : clean_report) (fcnt : nat) (fs' : fstore) :
  process_clean_task en fs cleanup_list full = Ok (rep, fcnt, fs') ->
  report_delete_item_count rep = List.length (report_deleted_words rep).
Proof.
  intro H. destruct (process_clean_task_ok en fs cleanup_list full rep fcnt fs' H)
    as [folders [cf [files [cfi [_ [_ [-> _]]]]]]].
  simpl. destruct (clean_files_loop_acc (e_opens en) files fs (0, [])) as [a [H1 H2]].
  rewrite H1, H2. reflexivity.
Qed.

Lemma report_count_is_word_count_witness :
  exists rep fcnt fs',
    process_clean_task demo_env demo_fs [] false = Ok (rep, fcnt, fs') /\
    report_delete_item_count rep = List.length (report_deleted_words rep).
Proof.
  destruct (process_clean_task demo_env demo_fs [] false) as [[[rep fcnt] fs']|] eqn:E.
  - exists rep, fcnt, fs'. split; [reflexivity|].
    exact (report_count_is_word_count demo_env demo_fs [] false rep fcnt fs' E).
  - exfalso. vm_compute in E. discriminate E.
Defined.

(** ** The scan results *)

Lemma add_unique_nodup (x : bytes) (l : list bytes) : NoDup l -> NoDup (add_unique x l).
Proof.
  intro H. unfold add_unique. destruct (existsb (bytes_eqb x) l) eqn:E; [exact H|].
  apply NoDup_app; [exact H | constructor; [intros []|constructor] |].
  intros y Hy [Hxy|[]]. subst y. assert (existsb (bytes_eqb x) l = true) as E'.
  { apply existsb_exists. exists x. split; [exact Hy | apply bytes_eqb_refl]. }
  rewrite E in E'. discriminate.
Qed.

Lemma scan_entries_nodup (kind : dir_entry -> bool) (suffix : bytes)
    (cleanup_list : list bytes) (es : list dir_entry) :
  forall cleaned, NoDup cleaned -> NoDup (snd (scan_entries kind suffix cleanup_list es cleaned)).
Proof.
  induction es as [|e es IH]; intros cleaned H; simpl; [exact H|].
  destruct (kind e && ends_with suffix (entry_name e)); [|apply IH; exact H].
  destruct (should_clean_userdb (extract_userdb_name (entry_is_dir e) (entry_name e))
              cleanup_list); [|apply IH; exact H].
  destruct (scan_entries kind suffix cleanup_list es
              (add_unique (extract_userdb_name (entry_is_dir e) (entry_name e) ++ suffix)
                 cleaned)) as [r c] eqn:Er.
  simpl. replace c with (snd (r, c)) by reflexivity. rewrite <- Er.
  apply IH. apply add_unique_nodup. exact H.
Qed.

(** The notification never lists a folder or file name twice, even when
    several files of one db are found in different sync subdirectories. *)
Theorem report_names_unique (en : env) (fs : fstore) (cleanup_list : list bytes)
    (full : bool) (rep : clean_report) (fcnt : nat) (fs' : fstore) :
  process_clean_task en fs cleanup_list full = Ok (rep, fcnt, fs') ->
  NoDup (report_cleaned_folders rep) /\ NoDup (report_cleaned_files rep).
Proof.
  intro H. destruct (process_clean_task_ok en fs cleanup_list full rep fcnt fs' H)
    as [folders [cf [files [cfi [Hf [Hg [-> _]]]]]]].
  simpl. split.
  - unfold get_userdb_folders in Hf.
    destruct (fs_exists (h_stat (e_host en)) (h_user_data_dir (e_host en))) as [ex|];
      simpl in Hf; [|discriminate].
    destruct (negb ex); [injection Hf as _ <-; constructor|].
    destruct (fs_is_directory (h_stat (e_host en)) (h_user_data_dir (e_host en))) as [isd|];
      simpl in Hf; [|discriminate].
    destruct (negb isd); [injection Hf as _ <-; constructor|].
    injection Hf as Hf. change cf with (snd (folders, cf)). rewrite <- Hf.
    apply scan_entries_nodup. constructor.
  - unfold get_userdb_files in Hg.
    destruct (get_sync_directory (e_host en)) as [sp|]; simpl in Hg; [|discriminate].
    destruct (exists_dir (h_stat (e_host en)) sp) as [ok|]; simpl in Hg; [|discriminate].
    destruct (negb ok); [injection Hg as _ <-; constructor|].
    injection Hg as Hg. change cfi with (snd (files, cfi)). rewrite <- Hg.
    apply scan_entries_nodup. constructor.
Qed.

(** Two copies of one db in two subdirectories of the sync directory. *)
Definition dup_env : env :=
  mk_env demo_host (fun _ => [])
    (fun d => if bytes_eqb d demo_sync then
                [mk_entry (s2l "C:\Rime\sync\a\luna.userdb.txt") (s2l "luna.userdb.txt") false true;
                 mk_entry (s2l "C:\Rime\sync\b\luna.userdb.txt") (s2l "luna.userdb.txt") false true]
              else [])
    (fun _ => true) (fun _ => (true, true)).

Lemma report_names_unique_witness :
  exists rep fcnt fs',
    process_clean_task dup_env demo_fs [] false = Ok (rep, fcnt, fs') /\
    report_cleaned_files rep = [s2l "luna.userdb.txt"] /\
    NoDup (report_cleaned_files rep).
Proof.
  destruct (process_clean_task dup_env demo_fs [] false) as [[[rep fcnt] fs']|] eqn:E.
  - exists rep, fcnt, fs'. split; [reflexivity|].
    split; [|exact (proj2 (report_names_unique dup_env demo_fs [] false rep fcnt fs' E))].
    vm_compute in E. injection E as <- _ _. reflexivity.
  - exfalso. vm_compute in E. discriminate E.
Defined.

Lemma ends_with_split (suffix name : bytes) :
  ends_with suffix name = true -> exists db, db <> [] /\ name = db ++ suffix.
Proof.
  unfold ends_with. intro H. apply andb_true_iff in H as [H1 H2].
  apply Nat.ltb_lt in H1. apply bytes_eqb_true in H2.
  exists (firstn (List.length name - List.length suffix) name). split.
  - intro E. apply (f_equal (@List.length ascii)) in E.
    rewrite length_firstn in E. simpl in E. lia.
  - rewrite <- H2 at 2. symmetry. apply firstn_skipn.
Qed.

(** The scans select only what they look for: a folder comes from a
    directory entry named "<db>.userdb" with a non-empty db name allowed by
    the list, a text file from a regular-file entry named "<db>.userdb.txt"
    under the resolved sync directory, likewise.  Neither a regular file
    "x.userdb" nor a directory "x.userdb.txt" nor an entry named just
    ".userdb" is ever selected. *)
Theorem scan_selects_only_matching (en : env) :
  (forall dir cleanup_list cleaned folders c p,
     get_userdb_folders en dir cleanup_list cleaned = Ok (folders, c) -> In p folders ->
     exists e db, In e (e_children en dir) /\ entry_path e = p /\ entry_is_dir e = true /\
       db <> [] /\ entry_name e = db ++ sfx_userdb /\ should_clean_userdb db cleanup_list = true) /\
  (forall cleanup_list cleaned files c p,
     get_userdb_files en cleanup_list cleaned = Ok (files, c) -> In p files ->
     exists sync e db, get_sync_directory (e_host en) = Ok sync /\ In e (e_tree en sync) /\
       entry_path e = p /\ entry_is_reg e = true /\
       db <> [] /\ entry_name e = db ++ sfx_userdb_txt /\
       should_clean_userdb db cleanup_list = true).
Proof.
  split.
  - intros dir cl cleaned folders c p H Hp. unfold get_userdb_folders in H.
    destruct (fs_exists (h_stat (e_host en)) dir) as [ex|]; simpl in H; [|discriminate].
    destruct (negb ex); [injection H as <- _; destruct Hp|].
    destruct (fs_is_directory (h_stat (e_host en)) dir) as [isd|]; simpl in H; [|discriminate].
    destruct (negb isd); [injection H as <- _; destruct Hp|].
    injection H as H.
    assert (In p (fst (scan_entries entry_is_dir sfx_userdb cl (e_children en dir) cleaned)))
      as Hin by (rewrite H; exact Hp).
    apply scan_entries_in in Hin as [e [He [Hpe [Hk Hs]]]].
    apply andb_true_iff in Hk as [Hd Hw].
    destruct (ends_with_split _ _ Hw) as [db [Hdb Hn]].
    exists e, db. rewrite Hn, Hd, extract_userdb_name_folder in Hs by exact Hdb.
    repeat split; assumption.
  - intros cl cleaned files c p H Hp. unfold get_userdb_files in H.
    destruct (get_sync_directory (e_host en)) as [sp|]; simpl in H; [|discriminate].
    destruct (exists_dir (h_stat (e_host en)) sp) as [ok|]; simpl in H; [|discriminate].
    destruct (negb ok); [injection H as <- _; destruct Hp|].
    injection H as H.
    assert (In p (fst (scan_entries entry_is_reg sfx_userdb_txt cl (e_tree en sp) cleaned)))
      as Hin by (rewrite H; exact Hp).
    apply scan_entries_in in Hin as [e [He [Hpe [Hk Hs]]]].
    apply andb_true_iff in Hk as [Hr Hw].
    destruct (ends_with_split _ _ Hw) as [db [Hdb Hn]].
    exists sp, e, db. rewrite Hn, extract_userdb_name_file in Hs by exact Hdb.
    repeat split; assumption.
Qed.

Lemma scan_selects_only_matching_witness :
  get_userdb_folders demo_env demo_user [] [] = Ok ([demo_folder], [s2l "foo.userdb"]) /\
  exists e db, In e (e_children demo_env demo_user) /\ entry_path e = demo_folder /\
    entry_is_dir e = true /\ db <> [] /\ entry_name e = db ++ sfx_userdb /\
    should_clean_userdb db [] = true.
Proof.
  assert (get_userdb_folders demo_env demo_user [] [] = Ok ([demo_folder], [s2l "foo.userdb"]))
    as H by (vm_compute; reflexivity).
  split; [exact H|].
  exact (proj1 (scan_selects_only_matching demo_env) demo_user [] [] _ _ demo_folder H
           (or_introl eq_refl)).
Defined.

(** The user data directory: when it is absent or not a directory, the
    folder purge finds nothing, deletes nothing and leaves the cleaned-folder
    list as it was; when its status query fails, the whole task throws and
    no notification is sent. *)
Theorem user_dir_status (en : env) (fs : fstore) (cleanup_list cleaned : list bytes)
    (full : bool) :
  (h_stat (e_host en) (h_user_data_dir (e_host en)) = StNotFound \/
   h_stat (e_host en) (h_user_data_dir (e_host en)) = StOther ->
   clean_userdb_folders en cleanup_list cleaned = Ok (0, cleaned)) /\
  (h_stat (e_host en) (h_user_data_dir (e_host en)) = StErr ->
   process_clean_task en fs cleanup_list full = Raise).
Proof.
  unfold process_clean_task, clean_userdb_folders, get_userdb_folders, fs_exists,
    fs_is_directory.
  split.
  - intros [H|H]; rewrite H; reflexivity.
  - intro H. rewrite H. reflexivity.
Qed.

Lemma user_dir_status_witness :
  h_stat (e_host posix_env) (h_user_data_dir (e_host posix_env)) = StNotFound /\
  clean_userdb_folders posix_env [] [] = Ok (0, []) /\
  h_stat (e_host err_env) (h_user_data_dir (e_host err_env)) = StErr /\
  process_clean_task err_env demo_fs [] false = Raise.
Proof.
  assert (h_stat (e_host posix_env) (h_user_data_dir (e_host posix_env)) = StNotFound)
    as H1 by (vm_compute; reflexivity).
  refine (conj H1 (conj _ (conj eq_refl _))).
  - exact (proj1 (user_dir_status posix_env demo_fs [] [] false) (or_introl H1)).
  - exact (proj2 (user_dir_status err_env demo_fs [] [] false) eq_refl).
Defined.

(** The cleaned-folder and cleaned-file lists of the notification are
    fixed by the scans alone: they name every selected folder and file,
    whether or not its deletions or its rewrite then succeed. *)
Theorem report_lists_from_scans (en : env) (fs fs2 : fstore) (cleanup_list : list bytes)
    (full full2 : bool) (rep : clean_report) (fcnt : nat) (fs' : fstore)
    (remove_ok : bytes -> bool) (opens : open_oracle) :
  process_clean_task en fs cleanup_list full = Ok (rep, fcnt, fs') ->
  exists rep2 fcnt2 fs2',
    process_clean_task (mk_env (e_host en) (e_children en) (e_tree en) remove_ok opens)
      fs2 cleanup_list full2 = Ok (rep2, fcnt2, fs2') /\
    report_cleaned_folders rep2 = report_cleaned_folders rep /\
    report_cleaned_files rep2 = report_cleaned_files rep.
Proof.
  intro H. destruct (process_clean_task_ok en fs cleanup_list full rep fcnt fs' H)
    as [folders [cf [files [cfi [Hf [Hg [-> _]]]]]]].
  set (en2 := mk_env (e_host en) (e_children en) (e_tree en) remove_ok opens).
  assert (get_userdb_folders en2 (h_user_data_dir (e_host en2)) cleanup_list [] =
          Ok (folders, cf)) as Hf2 by exact Hf.
  assert (get_userdb_files en2 cleanup_list [] = Ok (files, cfi)) as Hg2 by exact Hg.
  unfold process_clean_task, clean_userdb_folders, clean_userdb_files.
  rewrite Hf2. simpl. rewrite Hg2. simpl.
  destruct (clean_files_loop opens fs2 (0, []) files) as [fs3 [cnt words]].
  eexists _, _, _. split; [reflexivity|]. split; reflexivity.
Qed.

Lemma report_lists_from_scans_witness :
  exists rep fcnt fs',
    process_clean_task demo_env demo_fs [] false = Ok (rep, fcnt, fs') /\
    exists rep2 fcnt2 fs2',
      process_clean_task (mk_env demo_host (e_children demo_env) (e_tree demo_env)
                            (fun _ => false) (fun _ => (false, false))) demo_fs [] false =
        Ok (rep2, fcnt2, fs2') /\
      report_cleaned_folders rep2 = report_cleaned_folders rep /\
      report_cleaned_files rep2 = report_cleaned_files rep.
Proof.
  destruct (process_clean_task demo_env demo_fs [] false) as [[[rep fcnt] fs']|] eqn:E.
  - exists rep, fcnt, fs'. split; [reflexivity|].
    exact (report_lists_from_scans demo_env demo_fs demo_fs [] false false rep fcnt fs'
             (fun _ => false) (fun _ => (false, false)) E).
  - exfalso. vm_compute in E. discriminate E.
Defined.

(** ** Escaped separators in installation.yaml *)

Lemma collapse_cons_other (c : ascii) (t : bytes) :
  byte_eqb c backslash = false -> collapse_backslashes (c :: t) = c :: collapse_backslashes t.
Proof. intro E. destruct t as [|b r]; simpl; [reflexivity|]. rewrite E. reflexivity. Qed.

Lemma collapse_escape (s : bytes) : collapse_backslashes (escape_backslashes s) = s.
Proof.
  induction s as [|c s IH]; [reflexivity|].
  change (escape_backslashes (c :: s)) with
    ((if byte_eqb c backslash then [c; c] else [c]) ++ escape_backslashes s).
  destruct (byte_eqb c backslash) eqn:E.
  - apply byte_eqb_true in E. subst c. simpl. f_equal. exact IH.
  - change ([c] ++ escape_backslashes s) with (c :: escape_backslashes s).
    rewrite collapse_cons_other by exact E. f_equal. exact IH.
Qed.

(** The Windows loop undoes the doubling of backslashes exactly; so on a
    Windows build, when the API sync directory is unusable and
    installation.yaml gives a [sync_dir] written with doubled backslashes,
    the resolution returns the directory with single backslashes. *)
Theorem yaml_escaped_sync_dir (h : host) (d : bytes) :
  (forall s, collapse_backslashes (escape_backslashes s) = s) /\
  (h_plat h = Windows ->
   h_stat h (h_api_sync_dir h) = StNotFound \/ h_stat h (h_api_sync_dir h) = StOther ->
   h_stat h (path_join Windows (h_user_data_dir h) (s2l "installation.yaml")) = StDir \/
   h_stat h (path_join Windows (h_user_data_dir h) (s2l "installation.yaml")) = StOther ->
   h_yaml_sync_dir h = Some (escape_backslashes d) ->
   h_stat h d = StDir ->
   get_sync_directory h = Ok d).
Proof.
  split; [exact collapse_escape|].
  intros Hp Ha Hi Hy Hd.
  unfold get_sync_directory. rewrite Hp, Hy, collapse_escape.
  set (inst := path_join Windows (h_user_data_dir h) (s2l "installation.yaml")) in *.
  unfold exists_dir, fs_exists, fs_is_directory.
  assert (h_stat h inst <> StNotFound /\ h_stat h inst <> StErr) as [Hi1 Hi2]
    by (destruct Hi as [Hi|Hi]; rewrite Hi; split; discriminate).
  destruct Ha as [Ha|Ha]; rewrite Ha; cbn [res_bind];
    (destruct (h_stat h inst); [contradiction| | |contradiction]; cbn [res_bind];
     rewrite Hd; reflexivity).
Qed.

Lemma yaml_escaped_sync_dir_witness :
  h_yaml_sync_dir escaped_host = Some (escape_backslashes (s2l "D:\Sync\Rime")) /\
  get_sync_directory escaped_host = Ok (s2l "D:\Sync\Rime").
Proof.
  assert (h_yaml_sync_dir escaped_host = Some (escape_backslashes (s2l "D:\Sync\Rime")))
    as Hy by (vm_compute; reflexivity).
  split; [exact Hy|].
  apply (proj2 (yaml_escaped_sync_dir escaped_host (s2l "D:\Sync\Rime"))).
  - reflexivity.
  - left. vm_compute. reflexivity.
  - right. vm_compute. reflexivity.
  - exact Hy.
  - vm_compute. reflexivity.
Defined.

(** ** Configuration *)

Definition scalar_items (items : list cfg_item) : list bytes :=
  flat_map (fun it => match it with CfgScalar s => [s] | CfgOther => [] end) items.

Lemma push_items_spec (items : list cfg_item) :
  forall l, push_items l items = l ++ scalar_items items.
Proof.
  unfold push_items, scalar_items.
  induction items as [|it items IH]; intros l; simpl; [rewrite app_nil_r; reflexivity|].
  rewrite IH. destruct it; simpl; [rewrite <- app_assoc; reflexivity | reflexivity].
Qed.

Lemma scalar_items_nil (items : list cfg_item) :
  scalar_items items = [] <-> forall it, In it items -> it = CfgOther.
Proof.
  unfold scalar_items. induction items as [|it items IH]; simpl.
  - split; [intros _ it []|reflexivity].
  - destruct it as [s|]; simpl.
    + split; [discriminate|]. intro H. specialize (H (CfgScalar s) (or_introl eq_refl)).
      discriminate H.
    + rewrite IH. split.
      * intros H it [<-|Hi]; [reflexivity | apply H; exact Hi].
      * intros H it Hi. apply H. right. exact Hi.
Qed.

Lemma scalar_items_in (items : list cfg_item) (db : bytes) :
  In db (scalar_items items) <-> In (CfgScalar db) items.
Proof.
  unfold scalar_items. rewrite in_flat_map. split.
  - intros [[s|] [Hi Hs]]; [|destruct Hs].
    destruct Hs as [<-|[]]. exact Hi.
  - intro H. exists (CfgScalar db). split; [exact H | left; reflexivity].
Qed.

(** The allow list read by the constructor: a db name is cleaned iff the
    list node is absent (or there is no configuration), or none of its
    items is a string, or one of its string items is exactly that name;
    items that are lists or maps are skipped, so a list holding no string
    cleans every userdb. *)
Theorem config_allow_list (cfg : option schema_config) (db : bytes) :
  should_clean_userdb db (cleanup_userdb_list_ (make_cleaner cfg)) = true <->
  match cfg with
  | None => True
  | Some k =>
      match cfg_get_list k key_cleanup_userdb_list with
      | None => True
      | Some items => (forall it, In it items -> it = CfgOther) \/ In (CfgScalar db) items
      end
  end.
Proof.
  rewrite should_clean_userdb_iff.
  destruct cfg as [k|]; simpl; [|split; auto].
  destruct (cfg_get_list k key_cleanup_userdb_list) as [items|]; simpl; [|split; auto].
  rewrite push_items_spec. simpl. rewrite scalar_items_nil, scalar_items_in. reflexivity.
Qed.

(** The trigger: with the key [trigger_input] absent, the trigger is
    "/del" and a key event on an empty input does nothing; configured as the
    empty string, it makes every key event arriving on an empty input clear
    it and start a cleanup when none runs (Windows builds). *)
Theorem empty_trigger_fires (k : schema_config) (g : SingleFlight.gstate) :
  (cfg_get_string k key_trigger_input = None ->
   trigger_input_ (make_cleaner (Some k)) = s2l "/del" /\
   cleaner_process_key_event Windows (make_cleaner (Some k)) [] g = (kNoop, [], g)) /\
  (cfg_get_string k key_trigger_input = Some [] -> SingleFlight.busy g = false ->
   cleaner_process_key_event Windows (make_cleaner (Some k)) [] g =
     (kAccepted, [],
      SingleFlight.mk_g true
        [(cleanup_userdb_list_ (make_cleaner (Some k)),
          full_information_display_ (make_cleaner (Some k)))] (SingleFlight.files g))).
Proof.
  unfold cleaner_process_key_event, make_cleaner, initialize_config. split.
  - intro H. rewrite H. split; reflexivity.
  - intros H Hb. rewrite H. unfold process_key_event, SingleFlight.try_start.
    simpl. rewrite Hb. reflexivity.
Qed.

Lemma empty_trigger_fires_witness :
  cfg_get_string demo_config key_trigger_input = Some [] /\
  cleaner_process_key_event Windows (make_cleaner (Some demo_config)) []
    (SingleFlight.idle demo_fs) =
    (kAccepted, [], SingleFlight.mk_g true [([s2l "luna_pinyin"], false)] demo_fs).
Proof.
  assert (cfg_get_string demo_config key_trigger_input = Some []) as H
    by (vm_compute; reflexivity).
  split; [exact H|].
  exact (proj2 (empty_trigger_fires demo_config (SingleFlight.idle demo_fs)) H eq_refl).
Defined.

(** ** The notification text *)

Lemma to_wide_faithful (mb2wc : bytes -> wstring) (dec : bytes -> wstring) (w : bytes) :
  mb2wc (c_str w) = dec w ++ [0%N] -> to_wide mb2wc w = Some (dec w).
Proof.
  intro H. unfold to_wide. rewrite H.
  assert (pop_nul (dec w ++ [0%N]) = dec w) as Hp.
  { unfold pop_nul. rewrite rev_app_distr. simpl. apply rev_involutive. }
  destruct (dec w ++ [0%N]) as [|a r] eqn:E.
  - destruct (dec w); discriminate E.
  - rewrite Hp. reflexivity.
Qed.

Lemma join_with_cons {A : Type} (sep x : list A) (r : list (list A)) :
  join_with sep (x :: r) = x ++ List.concat (map (fun y => sep ++ y) r).
Proof.
  revert x; induction r as [|y r IH]; intros x; [simpl; rewrite app_nil_r; reflexivity|].
  change (join_with sep (x :: y :: r)) with (x ++ sep ++ join_with sep (y :: r)).
  rewrite IH. cbn [map List.concat]. rewrite <- app_assoc. reflexivity.
Qed.

Lemma mod5_succ (n : nat) : n mod 5 <= 3 -> S n mod 5 = S (n mod 5).
Proof.
  intro H. symmetry. apply (Nat.mod_unique (S n) 5 (n / 5)); [lia|].
  pose proof (Nat.div_mod_eq n 5). lia.
Qed.

Lemma mod5_add5 (n : nat) : (n + 5) mod 5 = n mod 5.
Proof.
  symmetry. apply (Nat.mod_unique (n + 5) 5 (S (n / 5))).
  - apply Nat.mod_upper_bound. lia.
  - pose proof (Nat.div_mod_eq n 5). lia.
Qed.

Definition bracket (dec : bytes -> wstring) (w : bytes) : wstring := [91%N] ++ dec w ++ [93%N].

(** Inside a row: items after the first get [", "]. *)
Lemma join_words_block (mb2wc dec : bytes -> wstring) (t : list bytes) (r : list bytes) :
  forall i, (forall x, In x r -> to_wide mb2wc x = Some (dec x)) ->
  1 <= i mod 5 -> i mod 5 + List.length r <= 5 ->
  join_words mb2wc i (r ++ t) =
    List.concat (map (fun x => w_comma ++ bracket dec x) r) ++
    join_words mb2wc (i + List.length r) t.
Proof.
  induction r as [|x r IH]; intros i Hr H1 H2.
  - cbn [app map List.concat List.length]. rewrite Nat.add_0_r. reflexivity.
  - assert ((0 <? i) = true) as Hi.
    { apply Nat.ltb_lt. destruct i; [simpl in H1; lia | lia]. }
    assert ((i mod 5 =? 0) = false) as Hm by (apply Nat.eqb_neq; lia).
    change ((x :: r) ++ t) with (x :: (r ++ t)). cbn [join_words].
    rewrite Hi, Hm, (Hr x (or_introl eq_refl)).
    assert (join_words mb2wc (S i) (r ++ t) =
            List.concat (map (fun x => w_comma ++ bracket dec x) r) ++
            join_words mb2wc (i + List.length (x :: r)) t) as E.
    { destruct r as [|y r'].
      + cbn [app map List.concat List.length]. rewrite Nat.add_1_r. reflexivity.
      + rewrite IH.
        * cbn [List.length]. f_equal. f_equal. lia.
        * intros z Hz. apply Hr. right. exact Hz.
        * cbn [List.length] in H2. rewrite mod5_succ by lia. lia.
        * cbn [List.length] in H2 |- *. rewrite mod5_succ by lia. lia. }
    rewrite E. cbn [map List.concat]. unfold bracket. rewrite <- !app_assoc. reflexivity.
Qed.

Lemma join_words_rows (mb2wc dec : bytes -> wstring) (f : nat) :
  forall l i, List.length l <= f ->
  (forall x, In x l -> to_wide mb2wc x = Some (dec x)) ->
  i mod 5 = 0 -> l <> [] ->
  join_words mb2wc i l =
    (if 0 <? i then [10%N] else []) ++
    join_with [10%N] (map (fun r => join_with w_comma (map (bracket dec) r)) (rows_of_five f l)).
Proof.
  induction f as [|f IH]; intros l i Hl Hw Hi Hne.
  - destruct l; [contradiction | simpl in Hl; lia].
  - destruct l as [|x rest]; [contradiction|].
    cbn [rows_of_five]. change (firstn 5 (x :: rest)) with (x :: firstn 4 rest).
    change (skipn 5 (x :: rest)) with (skipn 4 rest).
    cbn [join_words]. rewrite (Hw x (or_introl eq_refl)).
    assert ((if 0 <? i then if i mod 5 =? 0 then [10%N] else w_comma else []) =
            (if 0 <? i then [10%N] else [])) as Hlead by (rewrite Hi; reflexivity).
    rewrite Hlead. f_equal.
    rewrite <- (firstn_skipn 4 rest) at 1.
    rewrite (join_words_block mb2wc dec).
    2: { intros z Hz. apply Hw. right. rewrite <- (firstn_skipn 4 rest). apply in_or_app. left. exact Hz. }
    2: { rewrite mod5_succ by lia. lia. }
    2: { rewrite mod5_succ by lia. rewrite length_firstn. lia. }
    rewrite map_cons, join_with_cons. cbv beta.
    cbn [map]. rewrite (join_with_cons w_comma (bracket dec x)), map_map. cbv beta.
    change ([91%N] ++ dec x ++ [93%N]) with (bracket dec x).
    rewrite <- !app_assoc. f_equal. f_equal.
    destruct (skipn 4 rest) as [|y s] eqn:Es.
    + destruct f; reflexivity.
    + assert (List.length (firstn 4 rest) = 4) as H4.
      { rewrite length_firstn. assert (4 < List.length rest); [|lia].
        destruct (Nat.lt_ge_cases 4 (List.length rest)) as [Hlt|Hge]; [exact Hlt|].
        rewrite skipn_all2 in Es by exact Hge. discriminate Es. }
      assert (List.length (skipn 4 rest) = List.length rest - 4) as HL by apply length_skipn.
      rewrite Es in HL. cbn [List.length] in Hl, HL.
      rewrite H4. replace (S i + 4) with (i + 5) by lia.
      rewrite IH.
      * replace (0 <? i + 5) with true by (symmetry; apply Nat.ltb_lt; lia).
        destruct f as [|f']; [exfalso; lia|].
        cbn [rows_of_five]. rewrite map_cons, join_with_cons. reflexivity.
      * cbn [List.length]. lia.
      * intros z Hz. apply Hw. right. rewrite <- (firstn_skipn 4 rest).
        apply in_or_app. right. rewrite Es. exact Hz.
      * rewrite mod5_add5. exact Hi.
      * discriminate.
Qed.

(** With full display on and entries deleted, the message ends with the
    deleted-words section: every word, in order, in brackets, five to a
    line, separated by ", " within a line (for words that convert from
    UTF-8 without loss). *)
Theorem msg_words_rows (mb2wc dec : bytes -> wstring) (n : nat)
    (cleaned_folders cleaned_files words : list bytes) :
  (forall w, In w words -> mb2wc (c_str w) = dec w ++ [0%N]) ->
  0 < n -> words <> [] ->
  exists pre,
    send_clean_msg mb2wc n cleaned_folders cleaned_files words true =
      pre ++ w_words_hdr ++
      join_with [10%N]
        (map (fun r => join_with w_comma (map (fun w => [91%N] ++ dec w ++ [93%N]) r))
             (rows5 words)).
Proof.
  intros Hw Hn Hne. unfold send_clean_msg.
  replace (0 <? n) with true by (symmetry; apply Nat.ltb_lt; exact Hn).
  destruct words as [|w0 ws] eqn:Ew; [contradiction|].
  rewrite <- Ew. rewrite <- Ew in Hw, Hne.
  rewrite (join_words_rows mb2wc dec (List.length words) words 0 (le_n _)).
  - change (if 0 <? 0 then [10%N] else []) with (@nil N). rewrite app_nil_l.
    eexists. rewrite !app_assoc. reflexivity.
  - intros x Hx. apply to_wide_faithful. apply Hw. exact Hx.
  - reflexivity.
  - exact Hne.
Qed.

Lemma msg_words_rows_witness :
  (forall w, In w [s2l "a"; s2l "b"; s2l "c"; s2l "d"; s2l "e"; s2l "f"] ->
   ascii_mb2wc (c_str w) = map N_of_ascii w ++ [0%N]) /\
  exists pre,
    send_clean_msg ascii_mb2wc 6 [] [] [s2l "a"; s2l "b"; s2l "c"; s2l "d"; s2l "e"; s2l "f"]
      true =
    pre ++ w_words_hdr ++ wascii "[a], [b], [c], [d], [e]" ++ [10%N] ++ wascii "[f]".
Proof.
  assert (forall w, In w [s2l "a"; s2l "b"; s2l "c"; s2l "d"; s2l "e"; s2l "f"] ->
          ascii_mb2wc (c_str w) = map N_of_ascii w ++ [0%N]) as Hw.
  { intros w Hw. repeat (destruct Hw as [<-|Hw]; [reflexivity|]). destruct Hw. }
  split; [exact Hw|].
  destruct (msg_words_rows ascii_mb2wc (map N_of_ascii) 6 [] []
              [s2l "a"; s2l "b"; s2l "c"; s2l "d"; s2l "e"; s2l "f"] Hw ltac:(lia)
              ltac:(discriminate)) as [pre H].
  exists pre. rewrite H. reflexivity.
Defined.

Lemma join_names_faithful (mb2wc dec : bytes -> wstring) (l : list bytes) :
  (forall x, In x l -> to_wide mb2wc x = Some (dec x)) ->
  join_names mb2wc 0 l = join_with w_comma (map dec l).
Proof.
  assert (forall l i, (forall x, In x l -> to_wide mb2wc x = Some (dec x)) ->
          join_names mb2wc (S i) l = List.concat (map (fun y => w_comma ++ y) (map dec l)))
    as Hs.
  { induction l0 as [|x r IH]; intros i H; simpl; [reflexivity|].
    rewrite (H x (or_introl eq_refl)), (IH (S i)) by (intros z Hz; apply H; right; exact Hz).
    reflexivity. }
  intro H. destruct l as [|x r]; [reflexivity|].
  simpl join_names. rewrite (H x (or_introl eq_refl)), Hs by (intros z Hz; apply H; right; exact Hz).
  rewrite map_cons, (join_with_cons w_comma (dec x)). reflexivity.
Qed.

(** With full display on and entries deleted, the message starts with the
    completion line, "deleted <n> invalid entries" with [n] in decimal, a
    blank line, then the cleaned folders and the cleaned files, each list
    under its heading, its names separated by ", ", and followed by a blank
    line (for names that convert from UTF-8 without loss). *)
Theorem msg_name_lists (mb2wc dec : bytes -> wstring) (n : nat)
    (cleaned_folders cleaned_files words : list bytes) :
  (forall w, In w (cleaned_folders ++ cleaned_files) -> mb2wc (c_str w) = dec w ++ [0%N]) ->
  0 < n -> cleaned_folders <> [] -> cleaned_files <> [] ->
  exists rest,
    send_clean_msg mb2wc n cleaned_folders cleaned_files words true =
      w_done ++ w_deleted_pre ++ to_wstring n ++ w_deleted_post ++ w_blank ++
      w_folders_hdr ++ join_with w_comma (map dec cleaned_folders) ++ w_blank ++
      w_files_hdr ++ join_with w_comma (map dec cleaned_files) ++ w_blank ++ rest.
Proof.
  intros Hw Hn Hf Hfi. unfold send_clean_msg.
  replace (0 <? n) with true by (symmetry; apply Nat.ltb_lt; exact Hn).
  rewrite !(join_names_faithful mb2wc dec).
  2, 3: intros x Hx; apply to_wide_faithful; apply Hw; apply in_or_app; auto.
  destruct cleaned_folders as [|a cf]; [contradiction|].
  destruct cleaned_files as [|b cfi]; [contradiction|].
  eexists. rewrite <- !app_assoc. reflexivity.
Qed.

Lemma msg_name_lists_witness :
  (forall w, In w ([s2l "foo.userdb"; s2l "bar.userdb"] ++ [s2l "luna.userdb.txt"]) ->
   ascii_mb2wc (c_str w) = map N_of_ascii w ++ [0%N]) /\
  exists rest,
    send_clean_msg ascii_mb2wc 12 [s2l "foo.userdb"; s2l "bar.userdb"] [s2l "luna.userdb.txt"]
      [] true =
    w_done ++ w_deleted_pre ++ wascii "12" ++ w_deleted_post ++ w_blank ++
    w_folders_hdr ++ wascii "foo.userdb, bar.userdb" ++ w_blank ++
    w_files_hdr ++ wascii "luna.userdb.txt" ++ w_blank ++ rest.
Proof.
  assert (forall w, In w ([s2l "foo.userdb"; s2l "bar.userdb"] ++ [s2l "luna.userdb.txt"]) ->
          ascii_mb2wc (c_str w) = map N_of_ascii w ++ [0%N]) as Hw.
  { intros w Hw. repeat (destruct Hw as [<-|Hw]; [reflexivity|]). destruct Hw. }
  split; [exact Hw|].
  exact (msg_name_lists ascii_mb2wc (map N_of_ascii) 12 _ _ [] Hw ltac:(lia)
           ltac:(discriminate) ltac:(discriminate)).
Defined.
